(** * libebm: the AVX2 32-bit compute zone and the C bridge

    A shallow embedding of
      - shared/libebm/compute/avx2_ebm/avx2_32.cpp  (the lane types
        [Avx2_32_Int] and [Avx2_32_Float], and [CreateObjective_Avx2_32]);
      - shared/libebm/bridge_c/bridge_c.h           ([ObjectiveWrapper],
        [InitializeObjectiveWrapperUnfailing], [FreeObjectiveWrapperInternals]).

    Data model.
      - A 256-bit register is eight 32-bit lanes; a lane is the bit pattern it
        holds, as a [Z] (lane 0 is the least significant one).  Float lanes are
        binary32 patterns: sign bit 31, exponent bits 23..30, fraction 0..22.
      - A [T *] argument is an [array]: the address it holds and the cells
        that follow it.  A cell that was never written is [None].
      - Code that can trip an [EBM_ASSERT], fault, or leave defined behaviour
        returns a [result].
      - Callbacks ([TFunc]) are state transformers over a state of the
        caller's choosing, so the order of their invocations is observable.
      - The C heap is the finite set of live blocks. *)

From Stdlib Require Import ZArith Lia Bool.
From Stdlib Require Import SpecFloat.
From stdpp Require Import base option list gmap strings.

Local Open Scope Z_scope.
#[local] Set Warnings "-clear-no-such-hyp".

(* ===================================================================== *)
(** * Outcomes *)
(* ===================================================================== *)

(** What a call can end in: a value, a failed [EBM_ASSERT], or behaviour the
    language or the processor leaves undefined (an access outside the array,
    a read of an indeterminate cell, a misaligned aligned-move). *)
Inductive result (A : Type) : Type :=
  | Ok (a : A)
  | AssertionFailed
  | Undefined.
Arguments Ok {A} a.
Arguments AssertionFailed {A}.
Arguments Undefined {A}.

#[global] Instance result_ret : MRet result := fun A a => Ok a.
#[global] Instance result_bind : MBind result := fun A B f m =>
  match m with
  | Ok a => f a
  | AssertionFailed => AssertionFailed
  | Undefined => Undefined
  end.

(* ===================================================================== *)
(** * 256-bit and 128-bit registers *)
(* ===================================================================== *)

(** [__m256] and [__m256i]: eight 32-bit lanes. *)
Record m256 := M256 { lane0 : Z; lane1 : Z; lane2 : Z; lane3 : Z; lane4 : Z; lane5 : Z; lane6 : Z; lane7 : Z }.
Definition m256i := m256.

(** [__m128]: four 32-bit lanes. *)
Record m128 := M128 { elt0 : Z; elt1 : Z; elt2 : Z; elt3 : Z }.

Definition lanes (r : m256) : list Z :=
  [lane0 r; lane1 r; lane2 r; lane3 r; lane4 r; lane5 r; lane6 r; lane7 r].

(** Lane [i] of a register, [i] in 0..7. *)
Definition lane (r : m256) (i : nat) : Z := default 0 (lanes r !! i).

Definition map_lanes (f : Z -> Z) (r : m256) : m256 :=
  M256 (f (lane0 r)) (f (lane1 r)) (f (lane2 r)) (f (lane3 r)) (f (lane4 r)) (f (lane5 r)) (f (lane6 r)) (f (lane7 r)).

Definition map2_lanes (f : Z -> Z -> Z) (a b : m256) : m256 :=
  M256 (f (lane0 a) (lane0 b)) (f (lane1 a) (lane1 b)) (f (lane2 a) (lane2 b)) (f (lane3 a) (lane3 b))
       (f (lane4 a) (lane4 b)) (f (lane5 a) (lane5 b)) (f (lane6 a) (lane6 b)) (f (lane7 a) (lane7 b)).

Definition map3_lanes (f : Z -> Z -> Z -> Z) (a b c : m256) : m256 :=
  M256 (f (lane0 a) (lane0 b) (lane0 c)) (f (lane1 a) (lane1 b) (lane1 c)) (f (lane2 a) (lane2 b) (lane2 c))
       (f (lane3 a) (lane3 b) (lane3 c)) (f (lane4 a) (lane4 b) (lane4 c)) (f (lane5 a) (lane5 b) (lane5 c))
       (f (lane6 a) (lane6 b) (lane6 c)) (f (lane7 a) (lane7 b) (lane7 c)).

(** A lane holds 32 bits. *)
Definition wrap32 (x : Z) : Z := x mod 2 ^ 32.
Definition uint32 (x : Z) : Prop := 0 <= x < 2 ^ 32.
Definition all_ones : Z := 0xFFFFFFFF.

(** The value of a lane read as a signed 32-bit integer. *)
Definition signed32 (x : Z) : Z := if x <? 2 ^ 31 then x else x - 2 ^ 32.

(* ===================================================================== *)
(** * binary32 *)
(* ===================================================================== *)

(** The IEEE 754 value of a binary32 bit pattern, in the Standard Library's
    [spec_float] (precision 24, emax 128). *)
Definition binary32_of_bits (x : Z) : spec_float :=
  let s := Z.testbit x 31 in
  let e := Z.land (Z.shiftr x 23) 0xFF in
  let m := Z.land x 0x7FFFFF in
  if e =? 0 then
    if m =? 0 then S754_zero s else S754_finite s (Z.to_pos m) (-149)
  else if e =? 0xFF then
    if m =? 0 then S754_infinity s else S754_nan
  else S754_finite s (Z.to_pos (m + 0x800000)) (e - 150).

Definition is_nan32 (x : Z) : bool :=
  match binary32_of_bits x with S754_nan => true | _ => false end.

(** The bit pattern of a [spec_float] that [binary32_of_bits] produces; a NaN
    is given the default quiet pattern. *)
Definition bits_of_binary32 (f : spec_float) : Z :=
  let sign (s : bool) := if s then 0x80000000 else 0 in
  match f with
  | S754_zero s => sign s
  | S754_infinity s => sign s + 0x7F800000
  | S754_nan => 0x7FC00000
  | S754_finite s m e =>
      if Z.pos m <? 0x800000 then sign s + Z.pos m
      else sign s + Z.shiftl (e + 150) 23 + (Z.pos m - 0x800000)
  end.

(** Ordered comparisons: false as soon as one side is a NaN. *)
Definition binary32_lt (x y : Z) : bool := SFltb (binary32_of_bits x) (binary32_of_bits y).
Definition binary32_le (x y : Z) : bool := SFleb (binary32_of_bits x) (binary32_of_bits y).
Definition binary32_eq (x y : Z) : bool := SFeqb (binary32_of_bits x) (binary32_of_bits y).

(** Round-to-nearest-even binary32 addition on bit patterns, from the
    Standard Library's [SFadd].  It is the reference instance of the scalar
    addition the backend is parameterised by; NaN payloads are not tracked. *)
Definition binary32_add (x y : Z) : Z :=
  bits_of_binary32 (SFadd 24 128 (binary32_of_bits x) (binary32_of_bits y)).

(* ===================================================================== *)
(** * Arrays *)
(* ===================================================================== *)

(** What a [T *] designates: the address held by the pointer and the cells
    from there on. *)
Record array := Array { arr_addr : Z; arr_data : list (option Z) }.

(** Modelled from the spec: [IsAligned] (common_c.h is not among the sources).
    "Vector loads/stores require buffers aligned to the backend's register
    size": the address is a multiple of [cBytes]. *)
Definition IsAligned (a : array) (cBytes : Z) : bool := arr_addr a mod cBytes =? 0.

(** [a[k]] as an rvalue. *)
Definition index (a : array) (k : Z) : result Z :=
  if k <? 0 then Undefined
  else match arr_data a !! Z.to_nat k with
       | Some (Some v) => Ok v
       | _ => Undefined
       end.

(** [a[k] = v]. *)
Definition assign (a : array) (k : Z) (v : Z) : result array :=
  if (0 <=? k) && (k <? Z.of_nat (length (arr_data a)))
  then Ok (Array (arr_addr a) (<[Z.to_nat k := Some v]> (arr_data a)))
  else Undefined.

Definition read8 (d : list (option Z)) : option m256 :=
  match d with
  | Some v0 :: Some v1 :: Some v2 :: Some v3 :: Some v4 :: Some v5 :: Some v6 :: Some v7 :: _ =>
      Some (M256 v0 v1 v2 v3 v4 v5 v6 v7)
  | _ => None
  end.

Definition write8 (r : m256) (d : list (option Z)) : list (option Z) :=
  (Some <$> lanes r) ++ drop 8 d.

(* ===================================================================== *)
(** * Intrinsics (immintrin.h) *)
(* ===================================================================== *)

Definition sizeof_m256 : Z := 32.

Definition _mm256_set1_epi32 (a : Z) : m256i :=
  let v := wrap32 a in M256 v v v v v v v v.

(** Arguments in the order of the intrinsic: lane 7 first, lane 0 last. *)
Definition _mm256_set_epi32 (a7 a6 a5 a4 a3 a2 a1 a0 : Z) : m256i :=
  M256 (wrap32 a0) (wrap32 a1) (wrap32 a2) (wrap32 a3)
       (wrap32 a4) (wrap32 a5) (wrap32 a6) (wrap32 a7).

Definition _mm256_castsi256_ps (a : m256i) : m256 := a.
Definition _mm256_castps_si256 (a : m256) : m256i := a.

Definition _mm256_xor_si256 (a b : m256i) : m256i := map2_lanes Z.lxor a b.
Definition _mm256_and_si256 (a b : m256i) : m256i := map2_lanes Z.land a b.
Definition _mm256_and_ps (a b : m256) : m256 := map2_lanes Z.land a b.

(** Aligned moves: the address must be a multiple of 32, and all eight cells
    must be there (and, for a load, hold a value). *)
Definition _mm256_load_si256 (a : array) : result m256i :=
  if IsAligned a sizeof_m256
  then match read8 (arr_data a) with Some r => Ok r | None => Undefined end
  else Undefined.

Definition _mm256_store_si256 (a : array) (r : m256i) : result array :=
  if IsAligned a sizeof_m256 && (8 <=? length (arr_data a))%nat
  then Ok (Array (arr_addr a) (write8 r (arr_data a)))
  else Undefined.

Definition _mm256_load_ps (a : array) : result m256 := _mm256_load_si256 a.
Definition _mm256_store_ps (a : array) (r : m256) : result array := _mm256_store_si256 a r.

(** [_mm256_i32gather_ps(base, vindex, 4)]: lane [k] is [base[vindex_k]], the
    index read as a signed 32-bit integer. *)
Definition _mm256_i32gather_ps (a : array) (vindex : m256i) : result m256 :=
  v0 ← index a (signed32 (lane0 vindex));
  v1 ← index a (signed32 (lane1 vindex));
  v2 ← index a (signed32 (lane2 vindex));
  v3 ← index a (signed32 (lane3 vindex));
  v4 ← index a (signed32 (lane4 vindex));
  v5 ← index a (signed32 (lane5 vindex));
  v6 ← index a (signed32 (lane6 vindex));
  v7 ← index a (signed32 (lane7 vindex));
  Ok (M256 v0 v1 v2 v3 v4 v5 v6 v7).

(** Comparison predicates of [_mm256_cmp_ps] used by the backends. *)
Variant cmp_imm8 := _CMP_EQ_OQ | _CMP_LT_OS | _CMP_LE_OS | _CMP_LT_OQ.

Definition cmp_ps_lane (imm8 : cmp_imm8) (x y : Z) : bool :=
  match imm8 with
  | _CMP_EQ_OQ => binary32_eq x y
  | _CMP_LT_OS | _CMP_LT_OQ => binary32_lt x y
  | _CMP_LE_OS => binary32_le x y
  end.

(** A lane of the mask is all ones where the predicate holds, zero elsewhere. *)
Definition _mm256_cmp_ps (a b : m256) (imm8 : cmp_imm8) : m256 :=
  map2_lanes (fun x y => if cmp_ps_lane imm8 x y then all_ones else 0) a b.

Definition _mm256_cmpeq_epi32 (a b : m256i) : m256i :=
  map2_lanes (fun x y => if x =? y then all_ones else 0) a b.

(** [_mm256_blendv_ps(a, b, mask)]: lane of [b] where the sign bit of the
    mask lane is set, lane of [a] elsewhere. *)
Definition _mm256_blendv_ps (a b mask : m256) : m256 :=
  map3_lanes (fun x y m => if Z.testbit m 31 then y else x) a b mask.

Definition _mm256_castps256_ps128 (a : m256) : m128 := M128 (lane0 a) (lane1 a) (lane2 a) (lane3 a).

(** [_mm256_extractf128_ps(a, imm8)]: the low half for 0, the high half for 1. *)
Definition _mm256_extractf128_ps (a : m256) (imm8 : Z) : m128 :=
  if Z.testbit imm8 0 then M128 (lane4 a) (lane5 a) (lane6 a) (lane7 a)
  else M128 (lane0 a) (lane1 a) (lane2 a) (lane3 a).

Definition _mm_cvtss_f32 (a : m128) : Z := elt0 a.

(** Integer lane arithmetic keeps the low 32 bits of the result. *)
Definition _mm256_add_epi32 (a b : m256i) : m256i :=
  map2_lanes (fun x y => wrap32 (x + y)) a b.

Definition _mm256_mullo_epi32 (a b : m256i) : m256i :=
  map2_lanes (fun x y => wrap32 (x * y)) a b.

(** Logical shifts of every lane by the count in the low byte of [imm8]: a
    count above 31 clears the lane. *)
Definition _mm256_srli_epi32 (a : m256i) (imm8 : Z) : m256i :=
  let count := Z.land imm8 0xFF in
  map_lanes (fun x => if 31 <? count then 0 else Z.shiftr x count) a.

Definition _mm256_slli_epi32 (a : m256i) (imm8 : Z) : m256i :=
  let count := Z.land imm8 0xFF in
  map_lanes (fun x => if 31 <? count then 0 else wrap32 (Z.shiftl x count)) a.

(** Float arithmetic of the target.  The scalar binary32 addition is a
    parameter ([binary32_add] is its reference instance): the packed forms
    apply it lane by lane.  Within one addition the operands are written
    lower lane first. *)
Section PackedArithmetic.
Variable add_ss : Z -> Z -> Z.

Definition _mm256_add_ps (a b : m256) : m256 := map2_lanes add_ss a b.

Definition _mm_add_ps (a b : m128) : m128 :=
  M128 (add_ss (elt0 a) (elt0 b)) (add_ss (elt1 a) (elt1 b))
       (add_ss (elt2 a) (elt2 b)) (add_ss (elt3 a) (elt3 b)).

(** Horizontal add: adjacent pairs of [a], then adjacent pairs of [b]. *)
Definition _mm_hadd_ps (a b : m128) : m128 :=
  M128 (add_ss (elt0 a) (elt1 a)) (add_ss (elt2 a) (elt3 a))
       (add_ss (elt0 b) (elt1 b)) (add_ss (elt2 b) (elt3 b)).

(** The scalar subtraction of the target, like [add_ss]. *)
Variable sub_ss : Z -> Z -> Z.

Definition _mm256_sub_ps (a b : m256) : m256 := map2_lanes sub_ss a b.
End PackedArithmetic.

(* ===================================================================== *)
(** * Build configuration *)
(* ===================================================================== *)

(** Modelled from the spec: [EBM_ASSERT] (logging.h is not among the
    sources).  Precondition violations "are asserted in debug builds and are
    undefined/unchecked in release builds": with [NDEBUG] the macro expands to
    nothing. *)
Definition EBM_ASSERT (NDEBUG : bool) (cond : bool) : result unit :=
  if NDEBUG then Ok tt
  else if cond then Ok tt else AssertionFailed.

(** [alignas(alignment) T x[k_cSIMDPack];] an automatic array of eight cells
    with indeterminate contents.  The compiler picks where it goes ([slot]);
    [alignas] makes the address a multiple of [alignment]. *)
Definition alignas_array (alignment : Z) (slot : Z) : array :=
  Array (alignment * slot) (replicate 8 None).

(* ===================================================================== *)
(** * struct Avx2_32_Int *)
(* ===================================================================== *)

Module Avx2_32_Int.

Record t := Make { m_data : m256i }.

Definition k_cSIMDShift : Z := 3.
Definition k_cSIMDPack : Z := Z.shiftl 1 k_cSIMDShift.
Definition sizeof_TPack : Z := sizeof_m256.

Section Zone.
(** [NDEBUG]: whether assertions are compiled out.
    [SIMD_BYTE_ALIGNMENT]: the constant of common_c.h, which is not among
    the sources.  [slot n]: where the compiler puts the [n]-th automatic
    array of a function. *)
Variable NDEBUG : bool.
Variable SIMD_BYTE_ALIGNMENT : Z.
Variable slot : nat -> Z.

(** [Avx2_32_Int(const T val)] (avx2_32.cpp:51) *)
Definition broadcast (val : Z) : t := Make (_mm256_set1_epi32 val).

(** [Load(const T * const a)] (avx2_32.cpp:54-57) *)
Definition Load (a : array) : result t :=
  _ ← EBM_ASSERT NDEBUG (IsAligned a sizeof_TPack);
  r ← _mm256_load_si256 a;
  Ok (Make r).

(** [Store(T * const a) const] (avx2_32.cpp:59-62) *)
Definition Store (self : t) (a : array) : result array :=
  _ ← EBM_ASSERT NDEBUG (IsAligned a sizeof_TPack);
  _mm256_store_si256 a (m_data self).

(** [Execute(const TFunc & func, const Avx2_32_Int & val0)] (avx2_32.cpp:82-96).
    [a0] is the automatic array; the eight calls are written out, as in the
    source. *)
Definition Execute {St : Type} (func : Z -> Z -> St -> St) (val0 : t) (s : St) : result St :=
  a0 ← Store val0 (alignas_array SIMD_BYTE_ALIGNMENT (slot 0));
  v ← index a0 0; let s := func 0 v s in
  v ← index a0 1; let s := func 1 v s in
  v ← index a0 2; let s := func 2 v s in
  v ← index a0 3; let s := func 3 v s in
  v ← index a0 4; let s := func 4 v s in
  v ← index a0 5; let s := func 5 v s in
  v ← index a0 6; let s := func 6 v s in
  v ← index a0 7; let s := func 7 v s in
  Ok s.

(** [MakeIndexes()] (avx2_32.cpp:98-100) *)
Definition MakeIndexes : t := Make (_mm256_set_epi32 7 6 5 4 3 2 1 0).

(** [LoadBytes(const uint8_t * const a)] (avx2_32.cpp:64-80).  [a] is an
    array of bytes; each [aTemp[k] = a[k]] widens a byte to a [uint32_t].
    The assertion is on [sizeof( *a) * k_cSIMDPack], eight bytes. *)
Definition LoadBytes (a : array) : result t :=
  _ ← EBM_ASSERT NDEBUG (IsAligned a (1 * k_cSIMDPack));
  let aTemp := alignas_array SIMD_BYTE_ALIGNMENT (slot 0) in
  v ← index a 0; aTemp ← assign aTemp 0 v;
  v ← index a 1; aTemp ← assign aTemp 1 v;
  v ← index a 2; aTemp ← assign aTemp 2 v;
  v ← index a 3; aTemp ← assign aTemp 3 v;
  v ← index a 4; aTemp ← assign aTemp 4 v;
  v ← index a 5; aTemp ← assign aTemp 5 v;
  v ← index a 6; aTemp ← assign aTemp 6 v;
  v ← index a 7; aTemp ← assign aTemp 7 v;
  Load aTemp.

(** [operator+ (const Avx2_32_Int & other) const] (avx2_32.cpp:102-104);
    [operator+=] (avx2_32.cpp:106-109) assigns this sum to [*this]. *)
Definition operator_plus (self other : t) : t :=
  Make (_mm256_add_epi32 (m_data self) (m_data other)).

(** [operator* (const T & other) const] (avx2_32.cpp:111-113);
    [operator*=] (avx2_32.cpp:115-118) assigns this product to [*this]. *)
Definition operator_mul (self : t) (other : Z) : t :=
  Make (_mm256_mullo_epi32 (m_data self) (_mm256_set1_epi32 other)).

(** [operator>> (unsigned int shift) const] (avx2_32.cpp:120-122) *)
Definition operator_shr (self : t) (shift : Z) : t :=
  Make (_mm256_srli_epi32 (m_data self) shift).

(** [operator<< (unsigned int shift) const] (avx2_32.cpp:124-126) *)
Definition operator_shl (self : t) (shift : Z) : t :=
  Make (_mm256_slli_epi32 (m_data self) shift).

(** [operator& (const Avx2_32_Int & other) const] (avx2_32.cpp:128-130) *)
Definition operator_and (self other : t) : t :=
  Make (_mm256_and_si256 (m_data other) (m_data self)).
End Zone.

End Avx2_32_Int.

(* ===================================================================== *)
(** * struct Avx2_32_Float *)
(* ===================================================================== *)

Module Avx2_32_Float.

Record t := Make { m_data : m256 }.

Definition k_cSIMDShift : Z := Avx2_32_Int.k_cSIMDShift.
Definition k_cSIMDPack : Z := Avx2_32_Int.k_cSIMDPack.
Definition sizeof_TPack : Z := sizeof_m256.

Section Zone.
Variable NDEBUG : bool.
Variable SIMD_BYTE_ALIGNMENT : Z.
Variable slot : nat -> Z.
Variable add_ss : Z -> Z -> Z.

(** [operator+() const] (avx2_32.cpp:181-183) *)
Definition operator_pos (self : t) : t := self.

(** [operator-() const] (avx2_32.cpp:185-187) *)
Definition operator_neg (self : t) : t :=
  Make (_mm256_castsi256_ps
          (_mm256_xor_si256 (_mm256_castps_si256 (m_data self))
                            (_mm256_set1_epi32 0x80000000))).

(** [operator+ (const Avx2_32_Float & other) const] (avx2_32.cpp:189-191) *)
Definition operator_plus (self other : t) : t :=
  Make (_mm256_add_ps add_ss (m_data self) (m_data other)).

(** [Load(const T * const a)] (avx2_32.cpp:242-245) *)
Definition Load (a : array) : result t :=
  _ ← EBM_ASSERT NDEBUG (IsAligned a sizeof_TPack);
  r ← _mm256_load_ps a;
  Ok (Make r).

(** [Store(T * const a) const] (avx2_32.cpp:247-250) *)
Definition Store (self : t) (a : array) : result array :=
  _ ← EBM_ASSERT NDEBUG (IsAligned a sizeof_TPack);
  _mm256_store_ps a (m_data self).

(** [Load(const T * const a, const TInt i)] (avx2_32.cpp:252-255): the gather. *)
Definition Load_i (a : array) (i : Avx2_32_Int.t) : result t :=
  _ ← EBM_ASSERT NDEBUG (IsAligned a sizeof_TPack);
  r ← _mm256_i32gather_ps a (Avx2_32_Int.m_data i);
  Ok (Make r).

(** [Store(T * const a, const TInt i)] (avx2_32.cpp:257-274): the scatter.
    [ints] and [floats] are the two automatic arrays; [ints[k]] is a
    [uint32_t], so the index is the lane as an unsigned number. *)
Definition Store_i (self : t) (a : array) (i : Avx2_32_Int.t) : result array :=
  _ ← EBM_ASSERT NDEBUG (IsAligned a sizeof_TPack);
  ints ← Avx2_32_Int.Store NDEBUG i (alignas_array SIMD_BYTE_ALIGNMENT (slot 0));
  floats ← Store self (alignas_array SIMD_BYTE_ALIGNMENT (slot 1));
  k ← index ints 0; v ← index floats 0; a ← assign a k v;
  k ← index ints 1; v ← index floats 1; a ← assign a k v;
  k ← index ints 2; v ← index floats 2; a ← assign a k v;
  k ← index ints 3; v ← index floats 3; a ← assign a k v;
  k ← index ints 4; v ← index floats 4; a ← assign a k v;
  k ← index ints 5; v ← index floats 5; a ← assign a k v;
  k ← index ints 6; v ← index floats 6; a ← assign a k v;
  k ← index ints 7; v ← index floats 7; a ← assign a k v;
  Ok a.

(** [ApplyFunc(const TFunc & func, const Avx2_32_Float & val)]
    (avx2_32.cpp:276-292).  The callback takes the scalar of a lane and
    returns the scalar that replaces it. *)
Definition ApplyFunc {St : Type} (func : Z -> St -> Z * St) (val : t) (s : St)
  : result (t * St) :=
  aTemp ← Store val (alignas_array SIMD_BYTE_ALIGNMENT (slot 0));
  v ← index aTemp 0; let '(w, s) := func v s in aTemp ← assign aTemp 0 w;
  v ← index aTemp 1; let '(w, s) := func v s in aTemp ← assign aTemp 1 w;
  v ← index aTemp 2; let '(w, s) := func v s in aTemp ← assign aTemp 2 w;
  v ← index aTemp 3; let '(w, s) := func v s in aTemp ← assign aTemp 3 w;
  v ← index aTemp 4; let '(w, s) := func v s in aTemp ← assign aTemp 4 w;
  v ← index aTemp 5; let '(w, s) := func v s in aTemp ← assign aTemp 5 w;
  v ← index aTemp 6; let '(w, s) := func v s in aTemp ← assign aTemp 6 w;
  v ← index aTemp 7; let '(w, s) := func v s in aTemp ← assign aTemp 7 w;
  r ← Load aTemp;
  Ok (r, s).

(** [Execute(const TFunc & func)] (avx2_32.cpp:294-304) *)
Definition Execute0 {St : Type} (func : Z -> St -> St) (s : St) : St :=
  let s := func 0 s in
  let s := func 1 s in
  let s := func 2 s in
  let s := func 3 s in
  let s := func 4 s in
  let s := func 5 s in
  let s := func 6 s in
  let s := func 7 s in
  s.

(** [Execute(const TFunc & func, const Avx2_32_Float & val0)] (avx2_32.cpp:306-319) *)
Definition Execute {St : Type} (func : Z -> Z -> St -> St) (val0 : t) (s : St) : result St :=
  a0 ← Store val0 (alignas_array SIMD_BYTE_ALIGNMENT (slot 0));
  v ← index a0 0; let s := func 0 v s in
  v ← index a0 1; let s := func 1 v s in
  v ← index a0 2; let s := func 2 v s in
  v ← index a0 3; let s := func 3 v s in
  v ← index a0 4; let s := func 4 v s in
  v ← index a0 5; let s := func 5 v s in
  v ← index a0 6; let s := func 6 v s in
  v ← index a0 7; let s := func 7 v s in
  Ok s.

(** [Execute(const TFunc & func, const Avx2_32_Float & val0, const Avx2_32_Float & val1)]
    (avx2_32.cpp:321-336) *)
Definition Execute2 {St : Type} (func : Z -> Z -> Z -> St -> St) (val0 val1 : t) (s : St)
  : result St :=
  a0 ← Store val0 (alignas_array SIMD_BYTE_ALIGNMENT (slot 0));
  a1 ← Store val1 (alignas_array SIMD_BYTE_ALIGNMENT (slot 1));
  v ← index a0 0; w ← index a1 0; let s := func 0 v w s in
  v ← index a0 1; w ← index a1 1; let s := func 1 v w s in
  v ← index a0 2; w ← index a1 2; let s := func 2 v w s in
  v ← index a0 3; w ← index a1 3; let s := func 3 v w s in
  v ← index a0 4; w ← index a1 4; let s := func 4 v w s in
  v ← index a0 5; w ← index a1 5; let s := func 5 v w s in
  v ← index a0 6; w ← index a1 6; let s := func 6 v w s in
  v ← index a0 7; w ← index a1 7; let s := func 7 v w s in
  Ok s.

(** [IfLess] (avx2_32.cpp:337-340) *)
Definition IfLess (cmp1 cmp2 trueVal falseVal : t) : t :=
  let mask := _mm256_cmp_ps (m_data cmp1) (m_data cmp2) _CMP_LT_OQ in
  Make (_mm256_blendv_ps (m_data falseVal) (m_data trueVal) mask).

(** [IfEqual] (avx2_32.cpp:342-345) *)
Definition IfEqual (cmp1 cmp2 : Avx2_32_Int.t) (trueVal falseVal : t) : t :=
  let mask := _mm256_cmpeq_epi32 (Avx2_32_Int.m_data cmp1) (Avx2_32_Int.m_data cmp2) in
  Make (_mm256_blendv_ps (m_data falseVal) (m_data trueVal) (_mm256_castsi256_ps mask)).

(** [Abs] (avx2_32.cpp:347-349) *)
Definition Abs (val : t) : t :=
  Make (_mm256_and_ps (m_data val) (_mm256_castsi256_ps (_mm256_set1_epi32 0x7FFFFFFF))).

(** [Sum] (avx2_32.cpp:363-370) *)
Definition Sum (val : t) : Z :=
  let vlow := _mm256_castps256_ps128 (m_data val) in
  let vhigh := _mm256_extractf128_ps (m_data val) 1 in
  let sum := _mm_add_ps add_ss vlow vhigh in
  let sum1 := _mm_hadd_ps add_ss sum sum in
  let sum2 := _mm_hadd_ps add_ss sum1 sum1 in
  _mm_cvtss_f32 sum2.

(** The scalar subtraction of the target. *)
Variable sub_ss : Z -> Z -> Z.

(** [operator- (const Avx2_32_Float & other) const] (avx2_32.cpp:193-195) *)
Definition operator_minus (self other : t) : t :=
  Make (_mm256_sub_ps sub_ss (m_data self) (m_data other)).

(** [std::exp] and [std::log] on [float], the callbacks of [Exp] and [Log]. *)
Variable std_exp : Z -> Z.
Variable std_log : Z -> Z.

(** [Exp] (avx2_32.cpp:355-357): the lambda captures nothing. *)
Definition Exp (val : t) : result t :=
  r ← ApplyFunc (fun x (s : unit) => (std_exp x, s)) val tt;
  Ok r.1.

(** [Log] (avx2_32.cpp:359-361) *)
Definition Log (val : t) : result t :=
  r ← ApplyFunc (fun x (s : unit) => (std_log x, s)) val tt;
  Ok r.1.
End Zone.

End Avx2_32_Float.

(* ===================================================================== *)
(** * bridge_c.h *)
(* ===================================================================== *)

(** A data pointer is [NULL] or the block it points to; a function pointer
    is [NULL] or the address of the function. *)
Definition pointer := option positive.
Definition NULL : pointer := None.

(** [double], by value; [0.0] is positive zero. *)
Definition double := spec_float.
Definition double_zero : double := S754_zero false.

(** Modelled from the spec: [BoolEbm] and [LinkEbm] (libebm.h is not among the
    sources).  The binding carries flags and a "link-function tag"; the only
    tag bridge_c.h names is [Link_ERROR]. *)
Inductive BoolEbm := EBM_FALSE | EBM_TRUE.
Inductive LinkEbm := Link_ERROR | Link_tag (tag : Z).

(** [struct ObjectiveWrapper] (bridge_c.h:106-144) *)
Record ObjectiveWrapper := {
  m_pApplyUpdateC : pointer;
  m_pFinishMetricC : pointer;
  m_pCheckTargetsC : pointer;
  m_pBinSumsBoostingC : pointer;
  m_pBinSumsInteractionC : pointer;
  m_pObjective : pointer;
  m_bMaximizeMetric : BoolEbm;
  m_linkFunction : LinkEbm;
  m_linkParam : double;
  m_learningRateAdjustmentDifferentialPrivacy : double;
  m_learningRateAdjustmentGradientBoosting : double;
  m_learningRateAdjustmentHessianBoosting : double;
  m_gainAdjustmentGradientBoosting : double;
  m_gainAdjustmentHessianBoosting : double;
  m_gradientConstant : double;
  m_hessianConstant : double;
  m_bObjectiveHasHessian : BoolEbm;
  m_bRmse : BoolEbm;
  m_cSIMDPack : Z;
  m_cFloatBytes : Z;
  m_cUIntBytes : Z;
  m_pFunctionPointersCpp : pointer
}.

(** [struct Config] (bridge_c.h:176-180) *)
Record Config := { cOutputs : Z; isDifferentialPrivacy : BoolEbm }.

(** The memory a call works on: the caller's wrapper ([pObjectiveWrapper]
    points to it), the blocks of the C heap that are live, and how many more
    allocations the allocator will grant. *)
Record State := {
  wrapper : ObjectiveWrapper;
  live : gset positive;
  budget : nat
}.

(** [malloc]: a block that is not live, or [NULL] when the allocator is out
    of memory. *)
Definition malloc (st : State) : pointer * State :=
  match budget st with
  | O => (NULL, st)
  | S n =>
      let b := fresh (live st) in
      (Some b, {| wrapper := wrapper st; live := {[b]} ∪ live st; budget := n |})
  end.

(** [free]: nothing for [NULL]; releases a live block; anything else (a block
    that is not live, so also a second release) is undefined. *)
Definition free (p : pointer) (st : State) : option State :=
  match p with
  | None => Some st
  | Some b =>
      if decide (b ∈ live st)
      then Some {| wrapper := wrapper st; live := live st ∖ {[b]}; budget := budget st |}
      else None
  end.

Definition with_wrapper (w : ObjectiveWrapper) (st : State) : State :=
  {| wrapper := w; live := live st; budget := budget st |}.

(** [InitializeObjectiveWrapperUnfailing] (bridge_c.h:146-169): 22
    assignments, one to each of the 22 fields, so the wrapper that results
    does not depend on the one that was there. *)
Definition InitializeObjectiveWrapperUnfailing (pObjectiveWrapper : ObjectiveWrapper)
  : ObjectiveWrapper :=
  {| m_pApplyUpdateC := NULL;
     m_pFinishMetricC := NULL;
     m_pCheckTargetsC := NULL;
     m_pBinSumsBoostingC := NULL;
     m_pBinSumsInteractionC := NULL;
     m_pObjective := NULL;
     m_bMaximizeMetric := EBM_FALSE;
     m_linkFunction := Link_ERROR;
     m_linkParam := double_zero;
     m_learningRateAdjustmentDifferentialPrivacy := double_zero;
     m_learningRateAdjustmentGradientBoosting := double_zero;
     m_learningRateAdjustmentHessianBoosting := double_zero;
     m_gainAdjustmentGradientBoosting := double_zero;
     m_gainAdjustmentHessianBoosting := double_zero;
     m_gradientConstant := double_zero;
     m_hessianConstant := double_zero;
     m_bObjectiveHasHessian := EBM_FALSE;
     m_bRmse := EBM_FALSE;
     m_cSIMDPack := 0;
     m_cFloatBytes := 0;
     m_cUIntBytes := 0;
     m_pFunctionPointersCpp := NULL |}.

(** [FreeObjectiveWrapperInternals] (bridge_c.h:171-174).  The wrapper is
    only read: the two payloads are released, first [m_pObjective], then
    [m_pFunctionPointersCpp]. *)
Definition FreeObjectiveWrapperInternals (st : State) : option State :=
  st ← free (m_pObjective (wrapper st)) st;
  free (m_pFunctionPointersCpp (wrapper st)) st.

(* ===================================================================== *)
(** * The registry layer of the zone *)
(* ===================================================================== *)

(** Modelled from the spec: [ErrorEbm] (libebm.h is not among the sources).
    Binding creation reports "a distinct failure code"; the spec tells apart
    success, "allocation failure" and the "invalid-argument condition". *)
Inductive ErrorEbm := Error_None | Error_OutOfMemory | Error_InvalidArgument.

#[global] Instance ErrorEbm_eq_dec : EqDecision ErrorEbm.
Proof. solve_decision. Defined.

Section CreateObjective.
(** The two callees, and the registrations of objective_registrations.hpp,
    are not among the sources. *)
Context {Registrations : Type}.
Variable FillWrapper : State -> ErrorEbm * State.
Variable CreateObjective : Registrations -> Config -> string -> State -> ErrorEbm * State.
Variable RegisterObjectives : Registrations.

(** [CreateObjective_Avx2_32] (avx2_32.cpp:398-413).
    [sObjective .. sObjectiveEnd] is the objective string. *)
Definition CreateObjective_Avx2_32 (pConfig : Config) (sObjective : string) (st : State)
  : ErrorEbm * State :=
  let '(error, st) := FillWrapper st in
  if decide (Error_None ≠ error) then (error, st)
  else
    let '(error, st) := CreateObjective RegisterObjectives pConfig sObjective st in
    if decide (Error_None ≠ error) then (error, st)
    else (Error_None, st).
End CreateObjective.

(** The five compiled entry points of a zone (addresses of its kernels). *)
Record EntryPoints := {
  ep_ApplyUpdate : positive;
  ep_FinishMetric : positive;
  ep_CheckTargets : positive;
  ep_BinSumsBoosting : positive;
  ep_BinSumsInteraction : positive
}.

(** The scalar parameters an objective hands to its binding. *)
Record ObjectiveScalars := {
  os_bMaximizeMetric : BoolEbm;
  os_linkFunction : LinkEbm;
  os_linkParam : double;
  os_learningRateAdjustmentDifferentialPrivacy : double;
  os_learningRateAdjustmentGradientBoosting : double;
  os_learningRateAdjustmentHessianBoosting : double;
  os_gainAdjustmentGradientBoosting : double;
  os_gainAdjustmentHessianBoosting : double;
  os_gradientConstant : double;
  os_hessianConstant : double;
  os_bObjectiveHasHessian : BoolEbm;
  os_bRmse : BoolEbm
}.

(** Modelled from the spec: [ComputeWrapper<TFloat>::FillWrapper]
    (compute_wrapper.hpp is not among the sources).  The per-backend step that
    "allocate[s] and populate[s] a uniform function-pointer table": it
    allocates the "opaque owned payload holding backend-specific
    function-pointer state", points the five entry points at the zone's
    kernels and records lane width, float byte-width and integer byte-width.
    "Allocation failure" is reported, and then nothing has been written. *)
Definition ComputeWrapper_FillWrapper (zone : EntryPoints) (cSIMDPack cFloatBytes cUIntBytes : Z)
    (st : State) : ErrorEbm * State :=
  match malloc st with
  | (None, st) => (Error_OutOfMemory, st)
  | (Some b, st) =>
      let w := wrapper st in
      (Error_None,
       with_wrapper
         {| m_pApplyUpdateC := Some (ep_ApplyUpdate zone);
            m_pFinishMetricC := Some (ep_FinishMetric zone);
            m_pCheckTargetsC := Some (ep_CheckTargets zone);
            m_pBinSumsBoostingC := Some (ep_BinSumsBoosting zone);
            m_pBinSumsInteractionC := Some (ep_BinSumsInteraction zone);
            m_pObjective := m_pObjective w;
            m_bMaximizeMetric := m_bMaximizeMetric w;
            m_linkFunction := m_linkFunction w;
            m_linkParam := m_linkParam w;
            m_learningRateAdjustmentDifferentialPrivacy :=
              m_learningRateAdjustmentDifferentialPrivacy w;
            m_learningRateAdjustmentGradientBoosting :=
              m_learningRateAdjustmentGradientBoosting w;
            m_learningRateAdjustmentHessianBoosting :=
              m_learningRateAdjustmentHessianBoosting w;
            m_gainAdjustmentGradientBoosting := m_gainAdjustmentGradientBoosting w;
            m_gainAdjustmentHessianBoosting := m_gainAdjustmentHessianBoosting w;
            m_gradientConstant := m_gradientConstant w;
            m_hessianConstant := m_hessianConstant w;
            m_bObjectiveHasHessian := m_bObjectiveHasHessian w;
            m_bRmse := m_bRmse w;
            m_cSIMDPack := cSIMDPack;
            m_cFloatBytes := cFloatBytes;
            m_cUIntBytes := cUIntBytes;
            m_pFunctionPointersCpp := Some b |} st)
  end.

(** Modelled from the spec: the static registry (objective_registrations.hpp
    is not among the sources).  Given the configuration and the objective
    string it either constructs the named objective, yielding its scalar
    parameters, or has no objective for it: "unknown objective name, or
    name/parameter mismatch". *)
Definition Registry := Config -> string -> option ObjectiveScalars.

(** Modelled from the spec: what a construction that fails leaves behind
    (Objective.hpp is not among the sources).  "Construction never partially
    succeeds — either a fully populated binding is returned or nothing is
    allocated", and of a construction failure "no partial state escapes": the
    backend's function-pointer payload, which the wrapper holds when the
    factory is reached, is released, and the wrapper gets its initialised
    contents back.  (A wrapper whose payload pointer is not a live block does
    not reach the factory: [FillWrapper] has just allocated it.) *)
Definition abandon_construction (st : State) : State :=
  match free (m_pFunctionPointersCpp (wrapper st)) st with
  | Some st => with_wrapper (InitializeObjectiveWrapperUnfailing (wrapper st)) st
  | None => st
  end.

(** Modelled from the spec: [Objective::CreateObjective] (Objective.hpp is
    not among the sources).  The factory "looks up the named objective in a
    static registry, constructs it, and populates an Objective Binding by
    copying its scalar parameters"; the constructed objective is the "opaque
    owned payload holding the concrete objective's closure state".  An unknown
    name or a mismatch "fails with an invalid-argument condition", and
    "allocation failure" is a failure of its own; on either, "nothing is
    allocated". *)
Definition Objective_CreateObjective (registry : Registry) (pConfig : Config)
    (sObjective : string) (st : State) : ErrorEbm * State :=
  match registry pConfig sObjective with
  | None => (Error_InvalidArgument, abandon_construction st)
  | Some os =>
      match malloc st with
      | (None, st) => (Error_OutOfMemory, abandon_construction st)
      | (Some b, st) =>
          let w := wrapper st in
          (Error_None,
           with_wrapper
             {| m_pApplyUpdateC := m_pApplyUpdateC w;
                m_pFinishMetricC := m_pFinishMetricC w;
                m_pCheckTargetsC := m_pCheckTargetsC w;
                m_pBinSumsBoostingC := m_pBinSumsBoostingC w;
                m_pBinSumsInteractionC := m_pBinSumsInteractionC w;
                m_pObjective := Some b;
                m_bMaximizeMetric := os_bMaximizeMetric os;
                m_linkFunction := os_linkFunction os;
                m_linkParam := os_linkParam os;
                m_learningRateAdjustmentDifferentialPrivacy :=
                  os_learningRateAdjustmentDifferentialPrivacy os;
                m_learningRateAdjustmentGradientBoosting :=
                  os_learningRateAdjustmentGradientBoosting os;
                m_learningRateAdjustmentHessianBoosting :=
                  os_learningRateAdjustmentHessianBoosting os;
                m_gainAdjustmentGradientBoosting := os_gainAdjustmentGradientBoosting os;
                m_gainAdjustmentHessianBoosting := os_gainAdjustmentHessianBoosting os;
                m_gradientConstant := os_gradientConstant os;
                m_hessianConstant := os_hessianConstant os;
                m_bObjectiveHasHessian := os_bObjectiveHasHessian os;
                m_bRmse := os_bRmse os;
                m_cSIMDPack := m_cSIMDPack w;
                m_cFloatBytes := m_cFloatBytes w;
                m_cUIntBytes := m_cUIntBytes w;
                m_pFunctionPointersCpp := m_pFunctionPointersCpp w |} st)
      end
  end.

(** The zone's instance: [ComputeWrapper<Avx2_32_Float>::FillWrapper], with
    [k_cSIMDPack] lanes of [float] and [uint32_t]. *)
Definition FillWrapper_Avx2_32 (zone : EntryPoints) : State -> ErrorEbm * State :=
  ComputeWrapper_FillWrapper zone Avx2_32_Float.k_cSIMDPack 4 4.

(** [CreateObjective_Avx2_32] over the modelled callees. *)
Definition CreateObjective_Avx2_32_modelled (zone : EntryPoints) (registry : Registry)
  : Config -> string -> State -> ErrorEbm * State :=
  CreateObjective_Avx2_32 (FillWrapper_Avx2_32 zone) Objective_CreateObjective registry.


(* ===================================================================== *)
(** * Vocabulary of the statements *)
(* ===================================================================== *)

(** The sign bit of a lane, and the other 31. *)
Definition sign_mask : Z := 0x80000000.
Definition magnitude_mask : Z := 0x7FFFFFFF.

(** The order of binary32 values on their bit patterns: the 31 magnitude bits
    as a number, negated under the sign bit.  Both zeros have key 0. *)
Definition binary32_key (x : Z) : Z :=
  let magnitude := Z.land x 0x7FFFFFFF in
  if Z.testbit x 31 then - magnitude else magnitude.

(** Every lane of a register is a 32-bit number. *)
Definition wf_lanes (r : m256) : Prop := Forall uint32 (lanes r).

(** A word that carries [item], of [bits] bits, at bit [shift]: whatever lies
    below and above it. *)
Definition carries (shift bits word item : Z) : Prop :=
  exists below above : Z,
    0 <= below < 2 ^ shift /\ 0 <= above /\ 0 <= item < 2 ^ bits /\
    word = above * 2 ^ (shift + bits) + item * 2 ^ shift + below.

(** The reference subtraction, beside [binary32_add]. *)
Definition binary32_sub (x y : Z) : Z :=
  bits_of_binary32 (SFsub 24 128 (binary32_of_bits x) (binary32_of_bits y)).

(** A register from its eight lanes, in lane order. *)
Definition pack8 (l : list Z) : m256 :=
  M256 (default 0 (l !! 0%nat)) (default 0 (l !! 1%nat)) (default 0 (l !! 2%nat))
       (default 0 (l !! 3%nat)) (default 0 (l !! 4%nat)) (default 0 (l !! 5%nat))
       (default 0 (l !! 6%nat)) (default 0 (l !! 7%nat)).

(** The lane positions, ascending, each with the scalar of that lane. *)
Definition positions (r : m256) : list (Z * Z) :=
  zip [0; 1; 2; 3; 4; 5; 6; 7] (lanes r).

(** One call per element, first to last, threading the callback's state. *)
Definition invoke_each {St : Type} (func : Z -> Z -> St -> St) (calls : list (Z * Z)) (s : St) : St :=
  foldl (fun s c => func c.1 c.2 s) s calls.

(** The same for a callback that returns a value: the values, in order, and
    the final state. *)
Fixpoint collect_each {St : Type} (func : Z -> St -> Z * St) (xs : list Z) (s : St) : list Z * St :=
  match xs with
  | [] => ([], s)
  | x :: xs =>
      let '(y, s) := func x s in
      let '(ys, s) := collect_each func xs s in
      (y :: ys, s)
  end.

(** A callback that only records the call it received. *)
Definition record_call (i v : Z) (trace : list (Z * Z)) : list (Z * Z) := trace ++ [(i, v)].

(** Scalar stores [a[k] = v], first to last. *)
Definition scatter (d : list (option Z)) (writes : list (Z * Z)) : list (option Z) :=
  foldl (fun d w => <[Z.to_nat w.1 := Some w.2]> d) d writes.

(** An operation on a pointer asserts its alignment: compiled with assertions
    it ends in [AssertionFailed] exactly on a misaligned pointer, and compiled
    without it never does. *)
Definition asserts_alignment {A : Type} (op : bool -> array -> result A) (cBytes : Z) : Prop :=
  forall a : array,
    (op false a = AssertionFailed <-> IsAligned a cBytes = false) /\
    op true a <> AssertionFailed.

(** Sum of a non-empty list in list order. *)
Definition sum_in_order (add : Z -> Z -> Z) (l : list Z) : Z :=
  match l with
  | [] => 0
  | x :: l => foldl add x l
  end.

(** The blocks a wrapper owns through its two payload pointers. *)
Definition block_of (p : pointer) : gset positive :=
  match p with Some b => {[b]} | None => ∅ end.

Definition payloads (w : ObjectiveWrapper) : gset positive :=
  block_of (m_pObjective w) ∪ block_of (m_pFunctionPointersCpp w).

(** A wrapper as a caller declares it, before initialisation: whatever the
    memory held. *)
Definition uninitialized_wrapper : ObjectiveWrapper :=
  {| m_pApplyUpdateC := Some 77%positive;
     m_pFinishMetricC := NULL;
     m_pCheckTargetsC := Some 3%positive;
     m_pBinSumsBoostingC := NULL;
     m_pBinSumsInteractionC := Some 1%positive;
     m_pObjective := Some 5%positive;
     m_bMaximizeMetric := EBM_TRUE;
     m_linkFunction := Link_tag 9;
     m_linkParam := S754_nan;
     m_learningRateAdjustmentDifferentialPrivacy := S754_infinity true;
     m_learningRateAdjustmentGradientBoosting := double_zero;
     m_learningRateAdjustmentHessianBoosting := S754_nan;
     m_gainAdjustmentGradientBoosting := S754_zero true;
     m_gainAdjustmentHessianBoosting := S754_nan;
     m_gradientConstant := S754_infinity false;
     m_hessianConstant := S754_nan;
     m_bObjectiveHasHessian := EBM_TRUE;
     m_bRmse := EBM_FALSE;
     m_cSIMDPack := 12345;
     m_cFloatBytes := -1;
     m_cUIntBytes := 7;
     m_pFunctionPointersCpp := Some 6%positive |}.

(** The call site's protocol: declare the wrapper, initialise it, create. *)
Definition initial_state (w : ObjectiveWrapper) (blocks : gset positive) (grants : nat) : State :=
  {| wrapper := InitializeObjectiveWrapperUnfailing w; live := blocks; budget := grants |}.

(** A zone's entry points, a registry that knows one objective, and a
    configuration, to run the registry layer on. *)
Definition some_zone : EntryPoints :=
  {| ep_ApplyUpdate := 101; ep_FinishMetric := 102; ep_CheckTargets := 103;
     ep_BinSumsBoosting := 104; ep_BinSumsInteraction := 105 |}.

Definition some_scalars : ObjectiveScalars :=
  {| os_bMaximizeMetric := EBM_FALSE;
     os_linkFunction := Link_tag 1;
     os_linkParam := S754_nan;
     os_learningRateAdjustmentDifferentialPrivacy := double_zero;
     os_learningRateAdjustmentGradientBoosting := double_zero;
     os_learningRateAdjustmentHessianBoosting := double_zero;
     os_gainAdjustmentGradientBoosting := double_zero;
     os_gainAdjustmentHessianBoosting := double_zero;
     os_gradientConstant := double_zero;
     os_hessianConstant := double_zero;
     os_bObjectiveHasHessian := EBM_FALSE;
     os_bRmse := EBM_TRUE |}.

Definition some_registry : Registry :=
  fun _ sObjective => if decide (sObjective = "rmse"%string) then Some some_scalars else None.

Definition some_config : Config := {| cOutputs := 1; isDifferentialPrivacy := EBM_FALSE |}.

(** A binding that owns both payloads (blocks 2 and 1), on a heap where
    block 7 belongs to someone else. *)
Definition bound_wrapper : ObjectiveWrapper :=
  {| m_pApplyUpdateC := Some 101%positive;
     m_pFinishMetricC := Some 102%positive;
     m_pCheckTargetsC := Some 103%positive;
     m_pBinSumsBoostingC := Some 104%positive;
     m_pBinSumsInteractionC := Some 105%positive;
     m_pObjective := Some 2%positive;
     m_bMaximizeMetric := EBM_FALSE;
     m_linkFunction := Link_tag 1;
     m_linkParam := S754_nan;
     m_learningRateAdjustmentDifferentialPrivacy := double_zero;
     m_learningRateAdjustmentGradientBoosting := double_zero;
     m_learningRateAdjustmentHessianBoosting := double_zero;
     m_gainAdjustmentGradientBoosting := double_zero;
     m_gainAdjustmentHessianBoosting := double_zero;
     m_gradientConstant := double_zero;
     m_hessianConstant := double_zero;
     m_bObjectiveHasHessian := EBM_FALSE;
     m_bRmse := EBM_TRUE;
     m_cSIMDPack := 8;
     m_cFloatBytes := 4;
     m_cUIntBytes := 4;
     m_pFunctionPointersCpp := Some 1%positive |}.

Definition bound_state : State :=
  {| wrapper := bound_wrapper; live := {[1%positive; 2%positive; 7%positive]}; budget := 0 |}.

(** Registers and an array to run the lane operations on. *)
Definition ten_to_seventeen : m256 := M256 10 11 12 13 14 15 16 17.
Definition repeated_indexes : m256i := M256 0 1 0 3 1 5 5 0.
Definition six_cells : array := Array 96 [Some 90; Some 91; Some 92; Some 93; Some 94; Some 95].

(* ===================================================================== *)
(** * Properties of the lane types *)
(* ===================================================================== *)

Lemma testbit_sign_mask n : Z.testbit sign_mask n = (n =? 31).
Proof.
  change sign_mask with (2 ^ 31).
  destruct (Z.ltb_spec n 0) as [Hneg | Hpos].
  - rewrite Z.testbit_neg_r by lia. symmetry. apply Z.eqb_neq. lia.
  - rewrite Z.pow2_bits_eqb by lia. apply Z.eqb_sym.
Qed.

Lemma testbit_magnitude_mask n : Z.testbit magnitude_mask n = (0 <=? n) && (n <? 31).
Proof.
  change magnitude_mask with (Z.ones 31).
  destruct (Z.ltb_spec n 0) as [Hneg | Hpos].
  - rewrite Z.testbit_neg_r by lia.
    replace (0 <=? n) with false by (symmetry; apply Z.leb_gt; lia). reflexivity.
  - rewrite Z.testbit_ones by lia. reflexivity.
Qed.

Lemma set1_sign_mask :
  _mm256_set1_epi32 0x80000000 =
  M256 sign_mask sign_mask sign_mask sign_mask sign_mask sign_mask sign_mask sign_mask.
Proof. reflexivity. Qed.

Lemma set1_magnitude_mask :
  _mm256_set1_epi32 0x7FFFFFFF =
  M256 magnitude_mask magnitude_mask magnitude_mask magnitude_mask
       magnitude_mask magnitude_mask magnitude_mask magnitude_mask.
Proof. reflexivity. Qed.

Lemma flip_sign_bits x n :
  Z.testbit (Z.lxor x sign_mask) n = xorb (Z.testbit x n) (n =? 31).
Proof. now rewrite Z.lxor_spec, testbit_sign_mask. Qed.

Lemma clear_sign_bits x n :
  Z.testbit (Z.land x magnitude_mask) n = Z.testbit x n && (n <? 31).
Proof.
  rewrite Z.land_spec, testbit_magnitude_mask.
  destruct (Z.leb_spec 0 n) as [Hpos | Hneg]; [reflexivity |].
  rewrite (Z.testbit_neg_r x) by lia. reflexivity.
Qed.

Lemma flip_sign_twice x : Z.lxor (Z.lxor x sign_mask) sign_mask = x.
Proof. now rewrite Z.lxor_assoc, Z.lxor_nilpotent, Z.lxor_0_r. Qed.

Lemma clear_sign_twice x :
  Z.land (Z.land x magnitude_mask) magnitude_mask = Z.land x magnitude_mask.
Proof. now rewrite <- Z.land_assoc, Z.land_diag. Qed.

Lemma clear_sign_of_flipped x :
  Z.land (Z.lxor x sign_mask) magnitude_mask = Z.land x magnitude_mask.
Proof.
  apply Z.bits_inj'. intros n _.
  rewrite !clear_sign_bits, flip_sign_bits.
  destruct (Z.eqb_spec n 31) as [-> | Hne].
  - now rewrite !andb_false_r.
  - now rewrite xorb_false_r.
Qed.

(** C9.  Unary minus flips the sign bit of every lane and leaves every other
    bit; [Abs] clears the sign bit of every lane and leaves the 31 bits below
    it.  Hence, for every lane group and whatever its lanes hold (zeros,
    infinities and NaNs are bit patterns like any other): [-(-v)] is [v],
    [Abs (Abs v)] is [Abs v], and [Abs (-v)] is [Abs v]. *)
Theorem negation_and_abs_act_on_the_sign_bit :
  forall v : Avx2_32_Float.t,
    Forall2 (fun x y => forall n, Z.testbit y n = xorb (Z.testbit x n) (n =? 31))
            (lanes (Avx2_32_Float.m_data v))
            (lanes (Avx2_32_Float.m_data (Avx2_32_Float.operator_neg v))) /\
    Forall2 (fun x y => forall n, Z.testbit y n = Z.testbit x n && (n <? 31))
            (lanes (Avx2_32_Float.m_data v))
            (lanes (Avx2_32_Float.m_data (Avx2_32_Float.Abs v))) /\
    Avx2_32_Float.operator_neg (Avx2_32_Float.operator_neg v) = v /\
    Avx2_32_Float.Abs (Avx2_32_Float.Abs v) = Avx2_32_Float.Abs v /\
    Avx2_32_Float.Abs (Avx2_32_Float.operator_neg v) = Avx2_32_Float.Abs v.
Proof.
  intros [[v0 v1 v2 v3 v4 v5 v6 v7]].
  unfold Avx2_32_Float.operator_neg, Avx2_32_Float.Abs.
  rewrite set1_sign_mask, set1_magnitude_mask.
  unfold _mm256_castsi256_ps, _mm256_castps_si256, _mm256_xor_si256, _mm256_and_ps,
    map2_lanes, lanes; cbn [Avx2_32_Float.m_data lane0 lane1 lane2 lane3 lane4 lane5 lane6 lane7].
  repeat split.
  - repeat (constructor; [intros n; apply flip_sign_bits |]). constructor.
  - repeat (constructor; [intros n; apply clear_sign_bits |]). constructor.
  - now rewrite !flip_sign_twice.
  - now rewrite !clear_sign_twice.
  - now rewrite !clear_sign_of_flipped.
Qed.

(** Both keep a lane within its 32 bits. *)
Lemma flip_sign_uint32 x : uint32 x -> uint32 (Z.lxor x sign_mask).
Proof.
  unfold uint32. intros Hx.
  assert (Hnonneg : 0 <= Z.lxor x sign_mask).
  { apply Z.lxor_nonneg. unfold sign_mask. split; intros _; lia. }
  split; [exact Hnonneg |].
  destruct (Z.eq_dec (Z.lxor x sign_mask) 0) as [Hz | Hnz]; [rewrite Hz; lia |].
  apply Z.log2_lt_pow2; [lia |].
  assert (Hlog : Z.log2 (Z.lxor x sign_mask) <= Z.max (Z.log2 x) (Z.log2 sign_mask)).
  { apply Z.log2_lxor; [lia | unfold sign_mask; lia]. }
  assert (Z.log2 x < 32).
  { destruct (Z.eq_dec x 0) as [-> | ?]; [cbn; lia | apply Z.log2_lt_pow2; lia]. }
  change (Z.log2 sign_mask) with 31 in Hlog. lia.
Qed.

Lemma clear_sign_uint32 x : uint32 (Z.land x magnitude_mask).
Proof.
  unfold uint32. change magnitude_mask with (Z.ones 31).
  rewrite Z.land_ones by lia.
  pose proof (Z.mod_pos_bound x (2 ^ 31)). lia.
Qed.

(** On a 32-bit lane, [Abs] clears the sign bit and nothing else. *)
Lemma clear_sign_bits_uint32 x n :
  uint32 x -> Z.testbit (Z.land x magnitude_mask) n = Z.testbit x n && negb (n =? 31).
Proof.
  intros Hx. rewrite clear_sign_bits.
  destruct (Z.ltb_spec n 31) as [Hlt | Hge].
  - replace (n =? 31) with false by (symmetry; apply Z.eqb_neq; lia). reflexivity.
  - destruct (Z.eqb_spec n 31) as [-> | Hne]; [reflexivity |].
    assert (Hhigh : Z.testbit x n = false).
    { destruct (Z.eq_dec x 0) as [-> | Hnz]; [apply Z.testbit_0_l |].
      apply Z.bits_above_log2; [unfold uint32 in Hx; lia |].
      assert (Z.log2 x < 32) by (apply Z.log2_lt_pow2; unfold uint32 in Hx; lia).
      lia. }
    now rewrite Hhigh.
Qed.

(** The sign-bit operations are IEEE negation and absolute value of the
    lane's binary32 value. *)
Lemma flip_sign_is_SFopp x :
  binary32_of_bits (Z.lxor x sign_mask) = SFopp (binary32_of_bits x).
Proof.
  assert (He : Z.land (Z.shiftr (Z.lxor x sign_mask) 23) 0xFF = Z.land (Z.shiftr x 23) 0xFF).
  { apply Z.bits_inj'. intros n Hn.
    rewrite !Z.land_spec, !Z.shiftr_spec, flip_sign_bits by lia.
    change 0xFF with (Z.ones 8). rewrite Z.testbit_ones by lia.
    destruct (Z.ltb_spec n 8) as [Hlt | Hge].
    - replace (n + 23 =? 31) with false by (symmetry; apply Z.eqb_neq; lia).
      now rewrite xorb_false_r.
    - now rewrite !andb_false_r. }
  assert (Hm : Z.land (Z.lxor x sign_mask) 0x7FFFFF = Z.land x 0x7FFFFF).
  { apply Z.bits_inj'. intros n Hn.
    rewrite !Z.land_spec, flip_sign_bits.
    change 0x7FFFFF with (Z.ones 23). rewrite Z.testbit_ones by lia.
    destruct (Z.ltb_spec n 23) as [Hlt | Hge].
    - replace (n =? 31) with false by (symmetry; apply Z.eqb_neq; lia).
      now rewrite xorb_false_r.
    - now rewrite !andb_false_r. }
  unfold binary32_of_bits. cbv zeta.
  rewrite He, Hm, flip_sign_bits. change (31 =? 31) with true. rewrite xorb_true_r.
  destruct (Z.land (Z.shiftr x 23) 0xFF =? 0), (Z.land x 0x7FFFFF =? 0),
    (Z.land (Z.shiftr x 23) 0xFF =? 0xFF); reflexivity.
Qed.

Lemma clear_sign_is_SFabs x :
  binary32_of_bits (Z.land x magnitude_mask) = SFabs (binary32_of_bits x).
Proof.
  assert (He : Z.land (Z.shiftr (Z.land x magnitude_mask) 23) 0xFF = Z.land (Z.shiftr x 23) 0xFF).
  { apply Z.bits_inj'. intros n Hn.
    rewrite (Z.land_spec (Z.shiftr (Z.land x magnitude_mask) 23)),
      (Z.land_spec (Z.shiftr x 23)), !Z.shiftr_spec, clear_sign_bits by lia.
    change 0xFF with (Z.ones 8). rewrite Z.testbit_ones by lia.
    destruct (Z.ltb_spec n 8) as [Hlt | Hge].
    - replace (n + 23 <? 31) with true by (symmetry; apply Z.ltb_lt; lia).
      now rewrite andb_true_r.
    - now rewrite !andb_false_r. }
  assert (Hm : Z.land (Z.land x magnitude_mask) 0x7FFFFF = Z.land x 0x7FFFFF).
  { apply Z.bits_inj'. intros n Hn.
    rewrite (Z.land_spec (Z.land x magnitude_mask)), clear_sign_bits, (Z.land_spec x).
    change 0x7FFFFF with (Z.ones 23). rewrite Z.testbit_ones by lia.
    destruct (Z.ltb_spec n 23) as [Hlt | Hge].
    - replace (n <? 31) with true by (symmetry; apply Z.ltb_lt; lia).
      now rewrite andb_true_r.
    - now rewrite !andb_false_r. }
  unfold binary32_of_bits. cbv zeta.
  rewrite He, Hm, clear_sign_bits. change (31 <? 31) with false. rewrite andb_false_r.
  destruct (Z.land (Z.shiftr x 23) 0xFF =? 0), (Z.land x 0x7FFFFF =? 0),
    (Z.land (Z.shiftr x 23) 0xFF =? 0xFF); reflexivity.
Qed.

(** The three fields of a binary32 pattern. *)
Lemma binary32_fields x :
  uint32 x ->
  let e := Z.land (Z.shiftr x 23) 0xFF in
  let m := Z.land x 0x7FFFFF in
  0 <= e < 256 /\ 0 <= m < 0x800000 /\
  x = (if Z.testbit x 31 then 0x80000000 else 0) + e * 0x800000 + m.
Proof.
  unfold uint32. intros Hx. cbv zeta.
  change 0xFF with (Z.ones 8). change 0x7FFFFF with (Z.ones 23).
  rewrite !Z.land_ones, Z.shiftr_div_pow2 by lia.
  assert (Hs : (if Z.testbit x 31 then 0x80000000 else 0) = 2 ^ 31 * (x / 2 ^ 31)).
  { rewrite Z.testbit_eqb by lia.
    assert (0 <= x / 2 ^ 31 < 2)
      by (split; [apply Z.div_pos; lia | apply Z.div_lt_upper_bound; lia]).
    assert (Hc : x / 2 ^ 31 = 0 \/ x / 2 ^ 31 = 1) by lia.
    destruct Hc as [-> | ->]; reflexivity. }
  rewrite Hs.
  pose proof (Z.mod_pos_bound (x / 2 ^ 23) (2 ^ 8)).
  pose proof (Z.mod_pos_bound x (2 ^ 23)).
  split; [lia |]. split; [lia |].
  pose proof (Z.div_mod x (2 ^ 23)).
  pose proof (Z.div_mod (x / 2 ^ 23) (2 ^ 8)).
  assert (x / 2 ^ 23 / 2 ^ 8 = x / 2 ^ 31).
  { rewrite Z.div_div by lia. reflexivity. }
  lia.
Qed.

(** Decoding loses nothing but the payload of a NaN: a lane that is not a NaN
    is recovered from its value. *)
Lemma binary32_roundtrip x :
  uint32 x -> is_nan32 x = false -> bits_of_binary32 (binary32_of_bits x) = x.
Proof.
  intros Hx Hnan. pose proof (binary32_fields x Hx) as (He & Hm & Hdecomp).
  cbv zeta in *. unfold is_nan32 in Hnan. revert Hnan.
  unfold binary32_of_bits. cbv zeta.
  set (e := Z.land (Z.shiftr x 23) 0xFF) in *.
  set (m := Z.land x 0x7FFFFF) in *.
  set (sg := if Z.testbit x 31 then 0x80000000 else 0) in *.
  destruct (Z.eqb_spec e 0) as [He0 | He0].
  - destruct (Z.eqb_spec m 0) as [Hm0 | Hm0]; intros _; unfold bits_of_binary32.
    + fold sg. lia.
    + rewrite Z2Pos.id by lia. fold sg.
      replace (m <? 0x800000) with true by (symmetry; apply Z.ltb_lt; lia). lia.
  - destruct (Z.eqb_spec e 0xFF) as [He1 | He1].
    + destruct (Z.eqb_spec m 0) as [Hm0 | Hm0]; [intros _ | discriminate].
      unfold bits_of_binary32. fold sg. lia.
    + intros _. unfold bits_of_binary32. rewrite Z2Pos.id by lia. fold sg.
      replace (m + 0x800000 <? 0x800000) with false by (symmetry; apply Z.ltb_ge; lia).
      rewrite Z.shiftl_mul_pow2 by lia. change (2 ^ 23) with 0x800000. lia.
Qed.

Lemma binary32_magnitude x :
  uint32 x ->
  Z.land x 0x7FFFFFFF = Z.land (Z.shiftr x 23) 0xFF * 0x800000 + Z.land x 0x7FFFFF.
Proof.
  intros Hx. pose proof (binary32_fields x Hx) as (He & Hm & Hdecomp). cbv zeta in *.
  change 0x7FFFFFFF with (Z.ones 31). rewrite Z.land_ones by lia.
  set (e := Z.land (Z.shiftr x 23) 0xFF) in *. set (m := Z.land x 0x7FFFFF) in *.
  rewrite Hdecomp at 1.
  destruct (Z.testbit x 31).
  - replace (0x80000000 + e * 0x800000 + m) with ((e * 0x800000 + m) + 1 * 2 ^ 31) by lia.
    rewrite Z.mod_add by lia. apply Z.mod_small. lia.
  - apply Z.mod_small. lia.
Qed.

(** Exponent first, then mantissa, is the order of the magnitudes. *)
Lemma compare_canonical (m1 m2 : positive) (e1 e2 : Z) :
  -149 <= e1 -> -149 <= e2 ->
  Z.pos m1 < 0x1000000 -> Z.pos m2 < 0x1000000 ->
  (-149 < e1 -> 0x800000 <= Z.pos m1) -> (-149 < e2 -> 0x800000 <= Z.pos m2) ->
  match Z.compare e1 e2 with
  | Lt => Lt
  | Gt => Gt
  | Eq => Pos.compare_cont Eq m1 m2
  end = Z.compare ((e1 + 149) * 0x800000 + Z.pos m1) ((e2 + 149) * 0x800000 + Z.pos m2).
Proof.
  intros He1 He2 Hm1 Hm2 Hn1 Hn2.
  destruct (Z.compare_spec e1 e2) as [-> | Hlt | Hgt].
  - change (Pos.compare_cont Eq m1 m2) with (Pos.compare m1 m2).
    rewrite Pos2Z.inj_compare. symmetry.
    destruct (Z.compare_spec (Z.pos m1) (Z.pos m2)) as [Heq | Hlt | Hgt].
    + apply Z.compare_eq_iff. lia.
    + apply Z.compare_lt_iff. lia.
    + apply Z.compare_gt_iff. lia.
  - symmetry. apply Z.compare_lt_iff. lia.
  - symmetry. apply Z.compare_gt_iff. lia.
Qed.

Lemma compare_canonical_opp (m1 m2 : positive) (e1 e2 : Z) :
  -149 <= e1 -> -149 <= e2 ->
  Z.pos m1 < 0x1000000 -> Z.pos m2 < 0x1000000 ->
  (-149 < e1 -> 0x800000 <= Z.pos m1) -> (-149 < e2 -> 0x800000 <= Z.pos m2) ->
  match Z.compare e1 e2 with
  | Lt => Gt
  | Gt => Lt
  | Eq => CompOpp (Pos.compare_cont Eq m1 m2)
  end = Z.compare (- ((e1 + 149) * 0x800000 + Z.pos m1)) (- ((e2 + 149) * 0x800000 + Z.pos m2)).
Proof.
  intros He1 He2 Hm1 Hm2 Hn1 Hn2.
  rewrite Z.compare_opp.
  rewrite (Z.compare_antisym ((e1 + 149) * 0x800000 + Z.pos m1)
                             ((e2 + 149) * 0x800000 + Z.pos m2)).
  rewrite <- (compare_canonical m1 m2 e1 e2) by assumption.
  now destruct (Z.compare e1 e2).
Qed.

(** Off the NaNs, comparing two lanes as binary32 values is comparing their
    keys. *)
Lemma SFcompare_binary32 x y :
  uint32 x -> uint32 y -> is_nan32 x = false -> is_nan32 y = false ->
  SFcompare (binary32_of_bits x) (binary32_of_bits y) =
    Some (Z.compare (binary32_key x) (binary32_key y)).
Proof.
  intros Hx Hy Hnx Hny.
  pose proof (binary32_fields x Hx) as (Hex & Hmx & _).
  pose proof (binary32_fields y Hy) as (Hey & Hmy & _).
  cbv zeta in *.
  unfold binary32_key. cbv zeta. rewrite (binary32_magnitude x Hx), (binary32_magnitude y Hy).
  unfold is_nan32 in *. revert Hnx Hny.
  unfold binary32_of_bits. cbv zeta.
  set (ex := Z.land (Z.shiftr x 23) 0xFF) in *. set (mx := Z.land x 0x7FFFFF) in *.
  set (ey := Z.land (Z.shiftr y 23) 0xFF) in *. set (my := Z.land y 0x7FFFFF) in *.
  destruct (Z.testbit x 31), (Z.testbit y 31);
  destruct (Z.eqb_spec ex 0), (Z.eqb_spec mx 0), (Z.eqb_spec ex 0xFF);
  destruct (Z.eqb_spec ey 0), (Z.eqb_spec my 0), (Z.eqb_spec ey 0xFF);
  try discriminate; try lia; intros _ _; unfold SFcompare.
  all: try (f_equal; symmetry;
       first [apply Z.compare_eq_iff; lia | apply Z.compare_lt_iff; lia | apply Z.compare_gt_iff; lia]).
  all: f_equal.
  all: first
    [ rewrite compare_canonical by (rewrite ?Z2Pos.id by lia; lia)
    | rewrite compare_canonical_opp by (rewrite ?Z2Pos.id by lia; lia) ].
  all: rewrite !Z2Pos.id by lia.
  all: f_equal; lia.
Qed.

(** So the test of [IfLess] is the order of the keys. *)
Lemma binary32_lt_key x y :
  uint32 x -> uint32 y -> is_nan32 x = false -> is_nan32 y = false ->
  binary32_lt x y = (binary32_key x <? binary32_key y).
Proof.
  intros Hx Hy Hnx Hny. unfold binary32_lt, SFltb.
  rewrite SFcompare_binary32 by assumption. unfold Z.ltb.
  now destruct (binary32_key x ?= binary32_key y).
Qed.

Lemma blend_on_mask (b : bool) (x y : Z) :
  (if Z.testbit (if b then all_ones else 0) 31 then y else x) = if b then y else x.
Proof. destruct b; reflexivity. Qed.

(** C4.  [IfLess] yields, in every lane, the lane of [trueVal] where the lane
    of [cmp1] is less than the lane of [cmp2] as binary32 values (an ordered
    comparison: not so when either is a NaN) and the lane of [falseVal]
    elsewhere; [IfEqual] selects the same way on equality of the integer
    lanes. *)
Theorem IfLess_IfEqual_select_lanewise :
  forall (cmp1 cmp2 trueVal falseVal : Avx2_32_Float.t) (icmp1 icmp2 : Avx2_32_Int.t) (i : nat),
    lane (Avx2_32_Float.m_data (Avx2_32_Float.IfLess cmp1 cmp2 trueVal falseVal)) i =
      (if binary32_lt (lane (Avx2_32_Float.m_data cmp1) i) (lane (Avx2_32_Float.m_data cmp2) i)
       then lane (Avx2_32_Float.m_data trueVal) i
       else lane (Avx2_32_Float.m_data falseVal) i) /\
    lane (Avx2_32_Float.m_data (Avx2_32_Float.IfEqual icmp1 icmp2 trueVal falseVal)) i =
      (if lane (Avx2_32_Int.m_data icmp1) i =? lane (Avx2_32_Int.m_data icmp2) i
       then lane (Avx2_32_Float.m_data trueVal) i
       else lane (Avx2_32_Float.m_data falseVal) i).
Proof.
  intros [[a0 a1 a2 a3 a4 a5 a6 a7]] [[b0 b1 b2 b3 b4 b5 b6 b7]]
         [[t0 t1 t2 t3 t4 t5 t6 t7]] [[f0 f1 f2 f3 f4 f5 f6 f7]]
         [[c0 c1 c2 c3 c4 c5 c6 c7]] [[d0 d1 d2 d3 d4 d5 d6 d7]] i.
  unfold Avx2_32_Float.IfLess, Avx2_32_Float.IfEqual, _mm256_blendv_ps, _mm256_cmp_ps,
    _mm256_cmpeq_epi32, _mm256_castsi256_ps, map3_lanes, map2_lanes, cmp_ps_lane, lane, lanes.
  cbn [Avx2_32_Float.m_data Avx2_32_Int.m_data lane0 lane1 lane2 lane3 lane4 lane5 lane6 lane7].
  rewrite !blend_on_mask.
  do 8 (destruct i as [| i]; [split; reflexivity |]).
  cbn. split; [destruct (binary32_lt 0 0) | ]; reflexivity.
Qed.

(** What "less than" means on lanes. *)
Example one_lt_two : binary32_lt 0x3F800000 0x40000000 = true.
Proof. reflexivity. Qed.

Example minus_one_lt_zero : binary32_lt 0xBF800000 0 = true.
Proof. reflexivity. Qed.

Example minus_zero_not_lt_zero : binary32_lt 0x80000000 0 = false.
Proof. reflexivity. Qed.

Example nan_not_lt : binary32_lt 0x7FC00000 0x3F800000 = false /\
                     binary32_lt 0x3F800000 0x7FC00000 = false.
Proof. split; reflexivity. Qed.

(** A NaN on either side sends [IfLess] to [falseVal]. *)
Lemma binary32_lt_nan x y : is_nan32 x || is_nan32 y = true -> binary32_lt x y = false.
Proof.
  unfold is_nan32, binary32_lt, SFltb, SFcompare.
  destruct (binary32_of_bits x), (binary32_of_bits y); cbn; try discriminate; reflexivity.
Qed.

(** With an addition that is associative and commutative, the tree is the sum
    of the lanes in any order, so also in lane order. *)
Lemma Sum_in_lane_order (add_ss : Z -> Z -> Z) (val : Avx2_32_Float.t) :
  (forall x y z, add_ss x (add_ss y z) = add_ss (add_ss x y) z) ->
  (forall x y, add_ss x y = add_ss y x) ->
  Avx2_32_Float.Sum add_ss val = sum_in_order add_ss (lanes (Avx2_32_Float.m_data val)).
Proof.
  intros Hassoc Hcomm. destruct val as [[v0 v1 v2 v3 v4 v5 v6 v7]].
  unfold Avx2_32_Float.Sum, sum_in_order, lanes, _mm_hadd_ps, _mm_add_ps, _mm_cvtss_f32,
    _mm256_castps256_ps128, _mm256_extractf128_ps.
  cbn.
  assert (Hswap : forall x y z, add_ss x (add_ss y z) = add_ss y (add_ss x z)).
  { intros x y z. now rewrite Hassoc, (Hcomm x y), <- Hassoc. }
  rewrite <- !Hassoc. f_equal.
  rewrite (Hswap v4 v1). f_equal.
  rewrite (Hswap v5 v2), (Hswap v4 v2). f_equal.
  now rewrite (Hswap v6 v3), (Hswap v5 v3), (Hswap v4 v3).
Qed.

(** C5.  [Sum] returns one scalar, the sum of the eight lanes of the group,
    added as a pairwise tree: lane [k] to lane [k + 4] (low half plus high
    half), then neighbours, then the two halves; this for whatever the
    scalar addition of the target is.  Every lane enters the sum once: where
    the addition is associative and commutative, the result is the sum of the
    lanes in lane order. *)
Theorem Sum_adds_all_lanes_pairwise :
  forall (add_ss : Z -> Z -> Z) (val : Avx2_32_Float.t),
    let v := lane (Avx2_32_Float.m_data val) in
    Avx2_32_Float.Sum add_ss val =
      add_ss (add_ss (add_ss (v 0%nat) (v 4%nat)) (add_ss (v 1%nat) (v 5%nat)))
             (add_ss (add_ss (v 2%nat) (v 6%nat)) (add_ss (v 3%nat) (v 7%nat))) /\
    ((forall x y z, add_ss x (add_ss y z) = add_ss (add_ss x y) z) ->
     (forall x y, add_ss x y = add_ss y x) ->
     Avx2_32_Float.Sum add_ss val = sum_in_order add_ss (lanes (Avx2_32_Float.m_data val))).
Proof.
  intros add_ss val v. subst v. split.
  - now destruct val as [[v0 v1 v2 v3 v4 v5 v6 v7]].
  - apply Sum_in_lane_order.
Qed.

(** The lanes 1.0, 2.0, ..., 8.0 sum to 36.0. *)
Example Sum_one_to_eight :
  Avx2_32_Float.Sum binary32_add
    (Avx2_32_Float.Make (M256 0x3F800000 0x40000000 0x40400000 0x40800000
                              0x40A00000 0x40C00000 0x40E00000 0x41000000))
  = 0x42100000.
Proof. reflexivity. Qed.

(** binary32 addition rounds, so the order is part of the result: with lanes
    2^24, 1.0, 0, 0, -2^24, 0, 0, 0 the tree gives 1.0, the sum in lane order
    gives 0.0. *)
Example Sum_is_the_tree_not_the_lane_order :
  let val := Avx2_32_Float.Make (M256 0x4B800000 0x3F800000 0 0 0xCB800000 0 0 0) in
  Avx2_32_Float.Sum binary32_add val = 0x3F800000 /\
  sum_in_order binary32_add (lanes (Avx2_32_Float.m_data val)) = 0.
Proof. split; reflexivity. Qed.

(* ===================================================================== *)
(** * Unpack, call, repack *)
(* ===================================================================== *)

Lemma lanes_map_lanes f r : lanes (map_lanes f r) = f <$> lanes r.
Proof. reflexivity. Qed.

Lemma lanes_pack8 r : pack8 (lanes r) = r.
Proof. now destruct r. Qed.

Lemma length_lanes r : length (lanes r) = 8%nat.
Proof. reflexivity. Qed.

Lemma IsAligned_alignas (alignment k : Z) :
  (32 | alignment) -> IsAligned (alignas_array alignment k) 32 = true.
Proof.
  intros Hdiv. unfold IsAligned, alignas_array; cbn [arr_addr].
  apply Z.eqb_eq, Z.mod_divide; [lia |].
  now apply Z.divide_mul_l.
Qed.

Lemma EBM_ASSERT_true NDEBUG : EBM_ASSERT NDEBUG true = Ok tt.
Proof. now destruct NDEBUG. Qed.

Lemma EBM_ASSERT_release cond : EBM_ASSERT true cond = Ok tt.
Proof. reflexivity. Qed.

Lemma EBM_ASSERT_debug cond : EBM_ASSERT false cond = if cond then Ok tt else AssertionFailed.
Proof. reflexivity. Qed.

(** An automatic array that is aligned for the register takes a store of a
    whole register, which fills its eight cells. *)
Lemma store_automatic_array NDEBUG addr r :
  (addr mod 32 =? 0) = true ->
  Avx2_32_Float.Store NDEBUG (Avx2_32_Float.Make r) (Array addr (replicate 8 None)) =
    Ok (Array addr (Some <$> lanes r)) /\
  Avx2_32_Int.Store NDEBUG (Avx2_32_Int.Make r) (Array addr (replicate 8 None)) =
    Ok (Array addr (Some <$> lanes r)).
Proof.
  intros Ha.
  unfold Avx2_32_Float.Store, Avx2_32_Int.Store, _mm256_store_ps, _mm256_store_si256,
    Avx2_32_Float.sizeof_TPack, Avx2_32_Int.sizeof_TPack, sizeof_m256, IsAligned.
  cbn [arr_addr arr_data Avx2_32_Float.m_data Avx2_32_Int.m_data].
  rewrite Ha, EBM_ASSERT_true. split; reflexivity.
Qed.

Lemma load_filled_array NDEBUG addr r :
  (addr mod 32 =? 0) = true ->
  Avx2_32_Float.Load NDEBUG (Array addr (Some <$> lanes r)) = Ok (Avx2_32_Float.Make r).
Proof.
  intros Ha.
  unfold Avx2_32_Float.Load, _mm256_load_ps, _mm256_load_si256,
    Avx2_32_Float.sizeof_TPack, sizeof_m256, IsAligned.
  cbn [arr_addr arr_data].
  rewrite Ha, EBM_ASSERT_true. now destruct r.
Qed.

Section ZoneProperties.
Variable NDEBUG : bool.
Variable SIMD_BYTE_ALIGNMENT : Z.
Variable slot : nat -> Z.

(** [alignas(SIMD_BYTE_ALIGNMENT)] serves the register: the constant is a
    multiple of [sizeof(TPack)]. *)
Hypothesis SIMD_BYTE_ALIGNMENT_fits : (32 | SIMD_BYTE_ALIGNMENT).

Lemma automatic_array_aligned n :
  (arr_addr (alignas_array SIMD_BYTE_ALIGNMENT (slot n)) mod 32 =? 0) = true.
Proof using SIMD_BYTE_ALIGNMENT_fits. exact (IsAligned_alignas _ _ SIMD_BYTE_ALIGNMENT_fits). Qed.

Lemma Int_Execute_invokes {St : Type} (func : Z -> Z -> St -> St) (val0 : Avx2_32_Int.t) (s : St) :
  Avx2_32_Int.Execute NDEBUG SIMD_BYTE_ALIGNMENT slot func val0 s =
    Ok (invoke_each func (positions (Avx2_32_Int.m_data val0)) s).
Proof using SIMD_BYTE_ALIGNMENT_fits.
  destruct val0 as [r]. unfold Avx2_32_Int.Execute.
  pose proof (automatic_array_aligned 0) as Ha. unfold alignas_array in *. cbn [arr_addr] in Ha.
  rewrite (proj2 (store_automatic_array NDEBUG _ r Ha)).
  now destruct r.
Qed.

Lemma Float_Execute_invokes {St : Type} (func : Z -> Z -> St -> St) (val0 : Avx2_32_Float.t) (s : St) :
  Avx2_32_Float.Execute NDEBUG SIMD_BYTE_ALIGNMENT slot func val0 s =
    Ok (invoke_each func (positions (Avx2_32_Float.m_data val0)) s).
Proof using SIMD_BYTE_ALIGNMENT_fits.
  destruct val0 as [r]. unfold Avx2_32_Float.Execute.
  pose proof (automatic_array_aligned 0) as Ha. unfold alignas_array in *. cbn [arr_addr] in Ha.
  rewrite (proj1 (store_automatic_array NDEBUG _ r Ha)).
  now destruct r.
Qed.

Lemma Float_Execute2_invokes {St : Type} (func : Z -> Z -> Z -> St -> St)
    (val0 val1 : Avx2_32_Float.t) (s : St) :
  Avx2_32_Float.Execute2 NDEBUG SIMD_BYTE_ALIGNMENT slot func val0 val1 s =
    Ok (foldl (fun s c => func c.1.1 c.1.2 c.2 s) s
              (zip (positions (Avx2_32_Float.m_data val0)) (lanes (Avx2_32_Float.m_data val1)))).
Proof using SIMD_BYTE_ALIGNMENT_fits.
  destruct val0 as [r0], val1 as [r1]. unfold Avx2_32_Float.Execute2.
  pose proof (automatic_array_aligned 0) as Ha0. pose proof (automatic_array_aligned 1) as Ha1.
  unfold alignas_array in *. cbn [arr_addr] in Ha0, Ha1.
  rewrite (proj1 (store_automatic_array NDEBUG _ r0 Ha0)). cbn [mbind result_bind].
  rewrite (proj1 (store_automatic_array NDEBUG _ r1 Ha1)).
  now destruct r0, r1.
Qed.

Lemma ApplyFunc_collects {St : Type} (func : Z -> St -> Z * St) (val : Avx2_32_Float.t) (s : St) :
  Avx2_32_Float.ApplyFunc NDEBUG SIMD_BYTE_ALIGNMENT slot func val s =
    let '(ys, s') := collect_each func (lanes (Avx2_32_Float.m_data val)) s in
    Ok (Avx2_32_Float.Make (pack8 ys), s').
Proof using SIMD_BYTE_ALIGNMENT_fits.
  destruct val as [r]. unfold Avx2_32_Float.ApplyFunc.
  pose proof (automatic_array_aligned 0) as Ha. unfold alignas_array in *. cbn [arr_addr] in Ha.
  rewrite (proj1 (store_automatic_array NDEBUG _ r Ha)).
  generalize dependent (SIMD_BYTE_ALIGNMENT * slot 0). intros addr Ha.
  destruct r as [v0 v1 v2 v3 v4 v5 v6 v7].
  cbv -[Z.modulo Z.eqb]. rewrite Ha.
  destruct (func v0 s) as [w0 s0]; cbv beta iota.
  destruct (func v1 s0) as [w1 s1]; cbv beta iota.
  destruct (func v2 s1) as [w2 s2]; cbv beta iota.
  destruct (func v3 s2) as [w3 s3]; cbv beta iota.
  destruct (func v4 s3) as [w4 s4]; cbv beta iota.
  destruct (func v5 s4) as [w5 s5]; cbv beta iota.
  destruct (func v6 s5) as [w6 s6]; cbv beta iota.
  destruct (func v7 s6) as [w7 s7]; cbv beta iota.
  now destruct NDEBUG.
Qed.

(** C3.  For every lane group and every callback, [Execute] (of the integer
    and of the float lanes) spills the register to an array of eight scalars
    and calls the callback once per lane, lane 0 first and lane 7 last, each
    call carrying the lane position and the scalar of that lane (of both
    registers, for the overload that takes two); a callback that records its
    calls sees [(0, lane 0); ...; (7, lane 7)].  The overload that takes no
    register calls the callback once per lane as well, with the lane
    positions 0 up to 7 in that order.  [ApplyFunc] spills the
    register the same way, calls its callback on the scalar of each lane, in
    lane order, and reloads the register from the results: lane [i] of the
    result is the callback's value on lane [i] of the input. *)
Theorem Execute_ApplyFunc_visit_each_lane_in_order :
  forall (St : Type) (s : St) (ival : Avx2_32_Int.t) (val : Avx2_32_Float.t),
    let ir := Avx2_32_Int.m_data ival in
    let r := Avx2_32_Float.m_data val in
    (forall func : Z -> St -> St,
        Avx2_32_Float.Execute0 func s =
          foldl (fun s i => func i s) s [0; 1; 2; 3; 4; 5; 6; 7]) /\
    Avx2_32_Float.Execute0 (fun i (trace : list Z) => trace ++ [i]) [] =
      [0; 1; 2; 3; 4; 5; 6; 7] /\
    (forall func : Z -> Z -> St -> St,
        Avx2_32_Int.Execute NDEBUG SIMD_BYTE_ALIGNMENT slot func ival s =
          Ok (invoke_each func (positions ir) s)) /\
    (forall func : Z -> Z -> St -> St,
        Avx2_32_Float.Execute NDEBUG SIMD_BYTE_ALIGNMENT slot func val s =
          Ok (invoke_each func (positions r) s)) /\
    (forall (func : Z -> Z -> Z -> St -> St) (val1 : Avx2_32_Float.t),
        Avx2_32_Float.Execute2 NDEBUG SIMD_BYTE_ALIGNMENT slot func val val1 s =
          Ok (foldl (fun s c => func c.1.1 c.1.2 c.2 s) s
                    (zip (positions r) (lanes (Avx2_32_Float.m_data val1))))) /\
    Avx2_32_Int.Execute NDEBUG SIMD_BYTE_ALIGNMENT slot record_call ival [] =
      Ok [(0, lane0 ir); (1, lane1 ir); (2, lane2 ir); (3, lane3 ir);
          (4, lane4 ir); (5, lane5 ir); (6, lane6 ir); (7, lane7 ir)] /\
    Avx2_32_Float.Execute NDEBUG SIMD_BYTE_ALIGNMENT slot record_call val [] =
      Ok [(0, lane0 r); (1, lane1 r); (2, lane2 r); (3, lane3 r);
          (4, lane4 r); (5, lane5 r); (6, lane6 r); (7, lane7 r)] /\
    (forall func : Z -> St -> Z * St,
        Avx2_32_Float.ApplyFunc NDEBUG SIMD_BYTE_ALIGNMENT slot func val s =
          let '(ys, s') := collect_each func (lanes r) s in
          Ok (Avx2_32_Float.Make (pack8 ys), s')) /\
    (forall f : Z -> Z,
        exists out : m256,
          Avx2_32_Float.ApplyFunc NDEBUG SIMD_BYTE_ALIGNMENT slot
            (fun v (trace : list Z) => (f v, trace ++ [v])) val [] =
            Ok (Avx2_32_Float.Make out, lanes r) /\
          lanes out = f <$> lanes r).
Proof using SIMD_BYTE_ALIGNMENT_fits.
  intros St s ival val ir r. subst ir r.
  split; [intros func; reflexivity |].
  split; [reflexivity |].
  split; [intros; apply Int_Execute_invokes |].
  split; [intros; apply Float_Execute_invokes |].
  split; [intros; apply Float_Execute2_invokes |].
  split; [rewrite Int_Execute_invokes; now destruct ival as [[]] |].
  split; [rewrite Float_Execute_invokes; now destruct val as [[]] |].
  split; [intros; apply ApplyFunc_collects |].
  intros f. exists (map_lanes f (Avx2_32_Float.m_data val)).
  rewrite ApplyFunc_collects. now destruct val as [[]].
Qed.

(** A chain of scalar accesses can leave defined behaviour, but it trips no
    assertion. *)
Lemma bind_no_assertion {A B : Type} (m : result A) (k : A -> result B) :
  m <> AssertionFailed -> (forall a, k a <> AssertionFailed) -> m ≫= k <> AssertionFailed.
Proof. destruct m; cbn; [auto | congruence | discriminate]. Qed.

Lemma index_no_assertion a k : index a k <> AssertionFailed.
Proof. unfold index. repeat case_match; discriminate. Qed.

Lemma assign_no_assertion a k v : assign a k v <> AssertionFailed.
Proof. unfold assign. case_match; discriminate. Qed.

Lemma load_no_assertion a : _mm256_load_si256 a <> AssertionFailed.
Proof. unfold _mm256_load_si256. repeat case_match; discriminate. Qed.

Lemma store_no_assertion a r : _mm256_store_si256 a r <> AssertionFailed.
Proof. unfold _mm256_store_si256. case_match; discriminate. Qed.

Lemma gather_no_assertion a vindex : _mm256_i32gather_ps a vindex <> AssertionFailed.
Proof.
  unfold _mm256_i32gather_ps.
  repeat (apply bind_no_assertion; [apply index_no_assertion | intros ?]).
  discriminate.
Qed.

(** An operation that opens with [EBM_ASSERT(IsAligned(a, 32))] and
    asserts nothing after it. *)
Lemma asserts_alignment_of_guard {A : Type} (op body : bool -> array -> result A) :
  (forall nd a, op nd a = EBM_ASSERT nd (IsAligned a 32) ≫= fun _ => body nd a) ->
  (forall nd a, EBM_ASSERT nd (IsAligned a 32) = Ok tt -> body nd a <> AssertionFailed) ->
  asserts_alignment op 32.
Proof.
  intros Hop Hbody a. split; [split |].
  - intros Hfail. destruct (IsAligned a 32) eqn:Hal; [exfalso | reflexivity].
    rewrite Hop, EBM_ASSERT_debug, Hal in Hfail. cbn [mbind result_bind] in Hfail.
    apply (Hbody false a); [now rewrite EBM_ASSERT_debug, Hal | exact Hfail].
  - intros Hal. now rewrite Hop, EBM_ASSERT_debug, Hal.
  - rewrite Hop, EBM_ASSERT_release. cbn [mbind result_bind]. now apply Hbody.
Qed.

(** What is left of the scatter once its assertion has passed. *)
Lemma Store_i_after_assertion nd (val : Avx2_32_Float.t) (a : array) (i : Avx2_32_Int.t) :
  EBM_ASSERT nd (IsAligned a Avx2_32_Float.sizeof_TPack) = Ok tt ->
  Avx2_32_Float.Store_i nd SIMD_BYTE_ALIGNMENT slot val a i <> AssertionFailed.
Proof using SIMD_BYTE_ALIGNMENT_fits.
  intros Hassert. unfold Avx2_32_Float.Store_i. rewrite Hassert. cbn [mbind result_bind].
  pose proof (automatic_array_aligned 0) as Ha0. pose proof (automatic_array_aligned 1) as Ha1.
  unfold alignas_array in *. cbn [arr_addr] in Ha0, Ha1.
  destruct i as [ri], val as [rv].
  rewrite (proj2 (store_automatic_array nd _ ri Ha0)). cbn [mbind result_bind].
  rewrite (proj1 (store_automatic_array nd _ rv Ha1)). cbn [mbind result_bind].
  repeat (apply bind_no_assertion;
          [first [apply index_no_assertion | apply assign_no_assertion] | intros ?]).
  discriminate.
Qed.

(** C7.  The register is 32 bytes.  The contiguous [Load] and [Store] of both
    lane types, the gather [Load] and the scatter [Store] assert that the
    pointer they are given is 32-byte aligned: compiled with assertions,
    each ends in the failed assertion exactly when the pointer is not
    aligned, so under the alignment precondition the assertion does not
    fire; compiled without, none of them asserts anything. *)
Theorem Load_Store_assert_register_alignment :
  forall (ival : Avx2_32_Int.t) (val : Avx2_32_Float.t),
    Avx2_32_Int.sizeof_TPack = 32 /\ Avx2_32_Float.sizeof_TPack = 32 /\
    asserts_alignment (fun nd a => Avx2_32_Int.Load nd a) 32 /\
    asserts_alignment (fun nd a => Avx2_32_Int.Store nd ival a) 32 /\
    asserts_alignment (fun nd a => Avx2_32_Float.Load nd a) 32 /\
    asserts_alignment (fun nd a => Avx2_32_Float.Store nd val a) 32 /\
    asserts_alignment (fun nd a => Avx2_32_Float.Load_i nd a ival) 32 /\
    asserts_alignment
      (fun nd a => Avx2_32_Float.Store_i nd SIMD_BYTE_ALIGNMENT slot val a ival) 32.
Proof using SIMD_BYTE_ALIGNMENT_fits.
  intros ival val.
  split; [reflexivity |]. split; [reflexivity |].
  split; [| split; [| split; [| split; [| split]]]].
  - apply asserts_alignment_of_guard
      with (body := fun _ a => r ← _mm256_load_si256 a; Ok (Avx2_32_Int.Make r));
      [reflexivity | intros nd a _].
    apply bind_no_assertion; [apply load_no_assertion | discriminate].
  - apply asserts_alignment_of_guard
      with (body := fun _ a => _mm256_store_si256 a (Avx2_32_Int.m_data ival));
      [reflexivity | intros nd a _; apply store_no_assertion].
  - apply asserts_alignment_of_guard
      with (body := fun _ a => r ← _mm256_load_ps a; Ok (Avx2_32_Float.Make r));
      [reflexivity | intros nd a _].
    apply bind_no_assertion; [apply load_no_assertion | discriminate].
  - apply asserts_alignment_of_guard
      with (body := fun _ a => _mm256_store_ps a (Avx2_32_Float.m_data val));
      [reflexivity | intros nd a _; apply store_no_assertion].
  - apply asserts_alignment_of_guard
      with (body := fun _ a =>
                      r ← _mm256_i32gather_ps a (Avx2_32_Int.m_data ival);
                      Ok (Avx2_32_Float.Make r));
      [reflexivity | intros nd a _].
    apply bind_no_assertion; [apply gather_no_assertion | discriminate].
  - apply asserts_alignment_of_guard
      with (body := fun nd a => Avx2_32_Float.Store_i nd SIMD_BYTE_ALIGNMENT slot val a ival).
    + intros nd a. unfold Avx2_32_Float.Store_i, Avx2_32_Float.sizeof_TPack, sizeof_m256.
      destruct (EBM_ASSERT nd (IsAligned a 32)) as [[] | |]; reflexivity.
    + intros nd a Hassert. now apply Store_i_after_assertion.
Qed.
End ZoneProperties.

(* ===================================================================== *)
(** * The scalar scatter *)
(* ===================================================================== *)

Lemma scatter_snoc d ws w :
  scatter d (ws ++ [w]) = <[Z.to_nat w.1 := Some w.2]> (scatter d ws).
Proof. unfold scatter. now rewrite foldl_snoc. Qed.

Lemma length_scatter d ws : length (scatter d ws) = length d.
Proof.
  induction ws as [| w ws IH] using rev_ind; [reflexivity |].
  now rewrite scatter_snoc, length_insert.
Qed.

(** A cell no write is aimed at keeps what it held. *)
Lemma scatter_untouched d ws (j : nat) :
  (forall n w, ws !! n = Some w -> Z.to_nat w.1 <> j) ->
  scatter d ws !! j = d !! j.
Proof.
  induction ws as [| w ws IH] using rev_ind; intros Hfree; [reflexivity |].
  rewrite scatter_snoc, list_lookup_insert_ne.
  - apply IH. intros n w' Hw'. apply (Hfree n).
    rewrite lookup_app_l; [exact Hw' | now apply lookup_lt_Some in Hw'].
  - apply (Hfree (length ws)). now rewrite list_lookup_middle.
Qed.

(** A cell holds the value of the last write aimed at it. *)
Lemma scatter_last_write d ws (n : nat) w :
  ws !! n = Some w ->
  (forall n' w', (n < n')%nat -> ws !! n' = Some w' -> Z.to_nat w'.1 <> Z.to_nat w.1) ->
  (Z.to_nat w.1 < length d)%nat ->
  scatter d ws !! Z.to_nat w.1 = Some (Some w.2).
Proof.
  induction ws as [| x ws IH] using rev_ind; intros Hn Hlater Hlen; [discriminate |].
  rewrite scatter_snoc.
  apply lookup_snoc_Some in Hn as [[Hlt Hn] | [-> ->]].
  - rewrite list_lookup_insert_ne.
    + apply IH; [exact Hn | | exact Hlen].
      intros n' w' Hlt' Hw'. apply (Hlater n'); [exact Hlt' |].
      rewrite lookup_app_l; [exact Hw' | now apply lookup_lt_Some in Hw'].
    + apply (Hlater (length ws)); [exact Hlt | now rewrite list_lookup_middle].
  - apply list_lookup_insert_eq. now rewrite length_scatter.
Qed.

Lemma assign_in_bounds addr d k v :
  0 <= k < Z.of_nat (length d) ->
  assign (Array addr d) k v = Ok (Array addr (<[Z.to_nat k := Some v]> d)).
Proof.
  intros [Hlo Hhi]. unfold assign; cbn [arr_data arr_addr].
  apply Z.leb_le in Hlo. apply Z.ltb_lt in Hhi. now rewrite Hlo, Hhi.
Qed.

Section ScatterStore.
Variable NDEBUG : bool.
Variable SIMD_BYTE_ALIGNMENT : Z.
Variable slot : nat -> Z.
Hypothesis SIMD_BYTE_ALIGNMENT_fits : (32 | SIMD_BYTE_ALIGNMENT).

Lemma Store_i_is_scatter (val : Avx2_32_Float.t) (a : array) (i : Avx2_32_Int.t) :
  IsAligned a 32 = true ->
  Forall (fun k => 0 <= k < Z.of_nat (length (arr_data a))) (lanes (Avx2_32_Int.m_data i)) ->
  Avx2_32_Float.Store_i NDEBUG SIMD_BYTE_ALIGNMENT slot val a i =
    Ok (Array (arr_addr a)
              (scatter (arr_data a)
                       (zip (lanes (Avx2_32_Int.m_data i)) (lanes (Avx2_32_Float.m_data val))))).
Proof using SIMD_BYTE_ALIGNMENT_fits.
  intros Hal Hbounds.
  destruct i as [[k0 k1 k2 k3 k4 k5 k6 k7]], val as [[v0 v1 v2 v3 v4 v5 v6 v7]], a as [addr d].
  unfold lanes in *.
  cbn [Avx2_32_Int.m_data Avx2_32_Float.m_data arr_data arr_addr
       lane0 lane1 lane2 lane3 lane4 lane5 lane6 lane7] in *.
  rewrite !Forall_cons in Hbounds.
  destruct Hbounds as (H0 & H1 & H2 & H3 & H4 & H5 & H6 & H7 & _).
  unfold Avx2_32_Float.Store_i, Avx2_32_Float.sizeof_TPack, sizeof_m256.
  rewrite Hal, EBM_ASSERT_true. cbn [mbind result_bind].
  pose proof (automatic_array_aligned SIMD_BYTE_ALIGNMENT slot SIMD_BYTE_ALIGNMENT_fits 0) as Ha0.
  pose proof (automatic_array_aligned SIMD_BYTE_ALIGNMENT slot SIMD_BYTE_ALIGNMENT_fits 1) as Ha1.
  unfold alignas_array in *. cbn [arr_addr] in Ha0, Ha1.
  rewrite (proj2 (store_automatic_array NDEBUG _ (M256 k0 k1 k2 k3 k4 k5 k6 k7) Ha0)).
  cbn [mbind result_bind].
  rewrite (proj1 (store_automatic_array NDEBUG _ (M256 v0 v1 v2 v3 v4 v5 v6 v7) Ha1)).
  cbn [mbind result_bind].
  generalize (SIMD_BYTE_ALIGNMENT * slot 0) (SIMD_BYTE_ALIGNMENT * slot 1).
  clear Ha0 Ha1. intros a0 a1.
  cbv -[assign scatter zip].
  rewrite assign_in_bounds by exact H0. cbv beta iota.
  rewrite assign_in_bounds by (rewrite ?length_insert; exact H1). cbv beta iota.
  rewrite assign_in_bounds by (rewrite ?length_insert; exact H2). cbv beta iota.
  rewrite assign_in_bounds by (rewrite ?length_insert; exact H3). cbv beta iota.
  rewrite assign_in_bounds by (rewrite ?length_insert; exact H4). cbv beta iota.
  rewrite assign_in_bounds by (rewrite ?length_insert; exact H5). cbv beta iota.
  rewrite assign_in_bounds by (rewrite ?length_insert; exact H6). cbv beta iota.
  rewrite assign_in_bounds by (rewrite ?length_insert; exact H7). cbv beta iota.
  reflexivity.
Qed.

(** C8.  Given an aligned array and indexes inside it, the scatter [Store]
    performs the eight scalar stores [a[i[lane]] = value[lane]] for lane 0
    up to lane 7, nothing else.  So a cell whose index is not among the
    eight lane indexes is not modified; the cell at a lane's index receives
    that lane's value unless a higher lane carries the same index; and
    among lanes carrying the same index the highest one is the one whose
    value remains. *)
Theorem scatter_Store_writes_in_lane_order :
  forall (val : Avx2_32_Float.t) (a : array) (i : Avx2_32_Int.t),
    let ks := lanes (Avx2_32_Int.m_data i) in
    let vs := lanes (Avx2_32_Float.m_data val) in
    IsAligned a 32 = true ->
    Forall (fun k => 0 <= k < Z.of_nat (length (arr_data a))) ks ->
    exists a' : array,
      Avx2_32_Float.Store_i NDEBUG SIMD_BYTE_ALIGNMENT slot val a i = Ok a' /\
      arr_addr a' = arr_addr a /\
      length (arr_data a') = length (arr_data a) /\
      arr_data a' = scatter (arr_data a) (zip ks vs) /\
      (forall (j : nat),
          (forall n k, ks !! n = Some k -> Z.to_nat k <> j) ->
          arr_data a' !! j = arr_data a !! j) /\
      (forall (n : nat) k v,
          ks !! n = Some k -> vs !! n = Some v ->
          (forall n' k', (n < n')%nat -> ks !! n' = Some k' -> k' <> k) ->
          arr_data a' !! Z.to_nat k = Some (Some v)).
Proof using SIMD_BYTE_ALIGNMENT_fits.
  intros val a i ks vs Hal Hbounds.
  exists (Array (arr_addr a) (scatter (arr_data a) (zip ks vs))).
  split; [now apply Store_i_is_scatter |].
  cbn [arr_addr arr_data].
  split; [reflexivity |]. split; [apply length_scatter |]. split; [reflexivity |].
  split.
  - intros j Hfree. apply scatter_untouched.
    intros n [k v] Hw. apply lookup_zip_with_Some in Hw as (k' & v' & [= -> ->] & Hk & _).
    now apply (Hfree n).
  - intros n k v Hk Hv Hlater.
    assert (Hin : forall m x, ks !! m = Some x -> 0 <= x < Z.of_nat (length (arr_data a))).
    { intros m x Hx. exact (proj1 (Forall_lookup _ _) Hbounds m x Hx). }
    apply (scatter_last_write (arr_data a) (zip ks vs) n (k, v)).
    + apply lookup_zip_with_Some. now exists k, v.
    + intros n' [k' v'] Hlt Hw.
      apply lookup_zip_with_Some in Hw as (k'' & v'' & [= -> ->] & Hk' & _).
      cbn [fst]. pose proof (Hlater n' k'' Hlt Hk') as Hne.
      pose proof (Hin _ _ Hk). pose proof (Hin _ _ Hk'). lia.
    + cbn [fst]. pose proof (Hin _ _ Hk). lia.
Qed.
End ScatterStore.

(** Lanes 0, 2 and 7 all carry index 0: the cell keeps the value of lane 7.
    Lanes 5 and 6 carry index 5: the cell keeps the value of lane 6.  Cells 2
    and 4 are named by no lane and stay as they were. *)
Example scatter_Store_duplicate_indexes :
  Avx2_32_Float.Store_i false 64 Z.of_nat
    (Avx2_32_Float.Make ten_to_seventeen) six_cells (Avx2_32_Int.Make repeated_indexes)
  = Ok (Array 96 [Some 17; Some 14; Some 92; Some 13; Some 94; Some 16]).
Proof. reflexivity. Qed.

(* ===================================================================== *)
(** * The wrapper: initialisation and release *)
(* ===================================================================== *)

Lemma free_NULL st : free NULL st = Some st.
Proof. reflexivity. Qed.

Lemma free_live b st :
  b ∈ live st ->
  free (Some b) st = Some {| wrapper := wrapper st; live := live st ∖ {[b]}; budget := budget st |}.
Proof. intros Hb. unfold free. now rewrite decide_True. Qed.

Lemma free_not_live b st : b ∉ live st -> free (Some b) st = None.
Proof. intros Hb. unfold free. now rewrite decide_False. Qed.

(** C10.  After [InitializeObjectiveWrapperUnfailing] the five entry points
    and both payload pointers are [NULL], the link function is [Link_ERROR],
    the flags are false and every number is zero, whatever the wrapper held
    before.  Hence [FreeObjectiveWrapperInternals] on a wrapper that was
    initialised and never populated releases nothing: the heap and the
    wrapper are as they were. *)
Theorem initialized_wrapper_owns_nothing :
  forall (pObjectiveWrapper : ObjectiveWrapper) (blocks : gset positive) (grants : nat),
    let w := InitializeObjectiveWrapperUnfailing pObjectiveWrapper in
    (m_pApplyUpdateC w = NULL /\ m_pFinishMetricC w = NULL /\ m_pCheckTargetsC w = NULL /\
     m_pBinSumsBoostingC w = NULL /\ m_pBinSumsInteractionC w = NULL) /\
    (m_pObjective w = NULL /\ m_pFunctionPointersCpp w = NULL) /\
    m_linkFunction w = Link_ERROR /\
    (m_bMaximizeMetric w = EBM_FALSE /\ m_bObjectiveHasHessian w = EBM_FALSE /\
     m_bRmse w = EBM_FALSE) /\
    (m_linkParam w = double_zero /\
     m_learningRateAdjustmentDifferentialPrivacy w = double_zero /\
     m_learningRateAdjustmentGradientBoosting w = double_zero /\
     m_learningRateAdjustmentHessianBoosting w = double_zero /\
     m_gainAdjustmentGradientBoosting w = double_zero /\
     m_gainAdjustmentHessianBoosting w = double_zero /\
     m_gradientConstant w = double_zero /\ m_hessianConstant w = double_zero) /\
    (m_cSIMDPack w = 0 /\ m_cFloatBytes w = 0 /\ m_cUIntBytes w = 0) /\
    payloads w = ∅ /\
    FreeObjectiveWrapperInternals {| wrapper := w; live := blocks; budget := grants |} =
      Some {| wrapper := w; live := blocks; budget := grants |}.
Proof.
  intros pObjectiveWrapper blocks grants w. subst w.
  repeat split.
Qed.

Example initialization_overwrites_every_field :
  InitializeObjectiveWrapperUnfailing uninitialized_wrapper =
  InitializeObjectiveWrapperUnfailing (InitializeObjectiveWrapperUnfailing uninitialized_wrapper).
Proof. reflexivity. Qed.

Lemma free_frame p st st' :
  free p st = Some st' ->
  wrapper st' = wrapper st /\ budget st' = budget st /\ live st' = live st ∖ block_of p.
Proof.
  unfold free, block_of. destruct p as [b |].
  - case_decide; [| discriminate]. intros [= <-]. cbn. auto.
  - intros [= <-]. repeat split. set_solver.
Qed.

Lemma free_defined p st : block_of p ⊆ live st -> is_Some (free p st).
Proof.
  unfold free, block_of. destruct p as [b |]; [| eauto].
  intros Hb. rewrite decide_True by set_solver. eauto.
Qed.

Lemma FreeObjectiveWrapperInternals_frame st st' :
  FreeObjectiveWrapperInternals st = Some st' ->
  wrapper st' = wrapper st /\ budget st' = budget st /\
  live st' = live st ∖ payloads (wrapper st).
Proof.
  unfold FreeObjectiveWrapperInternals, payloads. intros Hfree.
  apply bind_Some in Hfree as (st1 & Hfree1 & Hfree2).
  apply free_frame in Hfree1 as (Hw1 & Hb1 & Hl1).
  apply free_frame in Hfree2 as (Hw2 & Hb2 & Hl2).
  rewrite Hw1 in *.
  split; [congruence |]. split; [congruence |].
  rewrite Hl2, Hl1. set_solver.
Qed.

(** C2.  One call of [FreeObjectiveWrapperInternals] on a binding whose
    payloads are live (or [NULL]) and are not one and the same block releases
    both of them: neither is live afterwards, every other block is as live as
    before, and the wrapper comes back with every field as it was. *)
Theorem FreeObjectiveWrapperInternals_releases_both_payloads :
  forall st : State,
    let w := wrapper st in
    payloads w ⊆ live st ->
    (m_pObjective w = NULL \/ m_pObjective w <> m_pFunctionPointersCpp w) ->
    exists st' : State,
      FreeObjectiveWrapperInternals st = Some st' /\
      wrapper st' = w /\
      live st' = live st ∖ payloads w /\
      (forall b, m_pObjective w = Some b -> b ∉ live st') /\
      (forall b, m_pFunctionPointersCpp w = Some b -> b ∉ live st') /\
      (forall b, b ∉ payloads w -> (b ∈ live st' <-> b ∈ live st)).
Proof.
  intros st w Hlive Hdistinct. subst w.
  assert (Hdefined : is_Some (FreeObjectiveWrapperInternals st)).
  { unfold FreeObjectiveWrapperInternals.
    destruct (free_defined (m_pObjective (wrapper st)) st) as [st1 Hfree1];
      [unfold payloads in Hlive; set_solver |].
    rewrite Hfree1. cbn [mbind option_bind].
    apply free_frame in Hfree1 as (Hw1 & _ & Hl1).
    apply free_defined. rewrite Hw1, Hl1.
    unfold payloads, block_of in *.
    destruct (m_pObjective (wrapper st)) as [b1 |], (m_pFunctionPointersCpp (wrapper st)) as [b2 |];
      set_solver. }
  destruct Hdefined as [st' Hst']. exists st'.
  destruct (FreeObjectiveWrapperInternals_frame st st' Hst') as (Hw & _ & Hl).
  split; [exact Hst' |]. split; [exact Hw |]. split; [exact Hl |].
  rewrite Hl. unfold payloads.
  split; [| split].
  - intros b Hb. rewrite Hb. cbn. set_solver.
  - intros b Hb. rewrite Hb. cbn. set_solver.
  - intros b Hb. set_solver.
Qed.

(** Releasing is not idempotent: the pointers are left dangling, so a second
    call on a binding that owned a payload is undefined. *)
Lemma second_release_is_undefined st st' :
  FreeObjectiveWrapperInternals st = Some st' ->
  payloads (wrapper st) <> ∅ ->
  FreeObjectiveWrapperInternals st' = None.
Proof.
  intros Hfree Hown.
  destruct (FreeObjectiveWrapperInternals_frame st st' Hfree) as (Hw & _ & Hl).
  unfold FreeObjectiveWrapperInternals, payloads in *. rewrite Hw.
  destruct (m_pObjective (wrapper st)) as [b1 |] eqn:H1.
  - rewrite free_not_live; [reflexivity | rewrite Hl; set_solver].
  - cbn. rewrite Hw.
    destruct (m_pFunctionPointersCpp (wrapper st)) as [b2 |] eqn:H2.
    + rewrite free_not_live; [reflexivity | rewrite Hl; set_solver].
    + cbn in Hown. exfalso. apply Hown. set_solver.
Qed.

(* ===================================================================== *)
(** * Creating a binding *)
(* ===================================================================== *)








Example CreateObjective_Avx2_32_known_objective :
  (CreateObjective_Avx2_32_modelled some_zone some_registry some_config "rmse"
     (initial_state uninitialized_wrapper ∅ 2)).1 = Error_None /\
  live (CreateObjective_Avx2_32_modelled some_zone some_registry some_config "rmse"
          (initial_state uninitialized_wrapper ∅ 2)).2 = {[1%positive; 2%positive]}.
Proof. split; vm_compute; reflexivity. Qed.

(* ===================================================================== *)
(** * The statements at concrete inputs *)
(* ===================================================================== *)

Lemma sixty_four_fits : (32 | 64).
Proof. exists 2. reflexivity. Defined.

Lemma Execute_ApplyFunc_visit_each_lane_in_order_witness :
  (32 | 64) /\
  Avx2_32_Float.Execute0 (fun i => record_call i (2 * i)) [] =
    [(0, 0); (1, 2); (2, 4); (3, 6); (4, 8); (5, 10); (6, 12); (7, 14)] /\
  Avx2_32_Int.Execute false 64 Z.of_nat record_call (Avx2_32_Int.Make ten_to_seventeen) [] =
    Ok [(0, 10); (1, 11); (2, 12); (3, 13); (4, 14); (5, 15); (6, 16); (7, 17)] /\
  Avx2_32_Float.Execute false 64 Z.of_nat record_call (Avx2_32_Float.Make ten_to_seventeen) [] =
    Ok [(0, 10); (1, 11); (2, 12); (3, 13); (4, 14); (5, 15); (6, 16); (7, 17)] /\
  exists out : m256,
    Avx2_32_Float.ApplyFunc false 64 Z.of_nat
      (fun v (trace : list Z) => (2 * v, trace ++ [v])) (Avx2_32_Float.Make ten_to_seventeen) [] =
      Ok (Avx2_32_Float.Make out, [10; 11; 12; 13; 14; 15; 16; 17]) /\
    lanes out = [20; 22; 24; 26; 28; 30; 32; 34].
Proof.
  split; [exact sixty_four_fits |].
  pose proof (Execute_ApplyFunc_visit_each_lane_in_order false 64 Z.of_nat sixty_four_fits
                (list (Z * Z)) [] (Avx2_32_Int.Make ten_to_seventeen)
                (Avx2_32_Float.Make ten_to_seventeen)) as T.
  cbv zeta in T. destruct T as (Hnone & _ & _ & _ & _ & Hint & Hfloat & _ & Happly).
  split; [exact (Hnone (fun i => record_call i (2 * i))) |].
  split; [exact Hint |]. split; [exact Hfloat |].
  exact (Happly (fun v => 2 * v)).
Defined.

Lemma Load_Store_assert_register_alignment_witness :
  (32 | 64) /\
  asserts_alignment (fun nd a => Avx2_32_Int.Load nd a) 32 /\
  asserts_alignment
    (fun nd a => Avx2_32_Float.Store_i nd 64 Z.of_nat (Avx2_32_Float.Make ten_to_seventeen) a
                   (Avx2_32_Int.Make repeated_indexes)) 32.
Proof.
  split; [exact sixty_four_fits |].
  pose proof (Load_Store_assert_register_alignment 64 Z.of_nat sixty_four_fits
                (Avx2_32_Int.Make repeated_indexes) (Avx2_32_Float.Make ten_to_seventeen)) as T.
  destruct T as (_ & _ & Hload & _ & _ & _ & _ & Hscatter).
  split; [exact Hload | exact Hscatter].
Defined.

(** A pointer into the middle of a register-sized block trips the assertion of
    a debug build; the aligned one does not. *)
Example misaligned_pointer_trips_the_assertion :
  Avx2_32_Float.Load false (Array 100 (Some <$> lanes ten_to_seventeen)) = AssertionFailed /\
  Avx2_32_Float.Load false (Array 96 (Some <$> lanes ten_to_seventeen))
    = Ok (Avx2_32_Float.Make ten_to_seventeen) /\
  Avx2_32_Float.Load true (Array 100 (Some <$> lanes ten_to_seventeen)) = Undefined.
Proof. repeat split. Qed.

Lemma scatter_Store_writes_in_lane_order_witness :
  (32 | 64) /\
  IsAligned six_cells 32 = true /\
  Forall (fun k => 0 <= k < Z.of_nat (length (arr_data six_cells))) (lanes repeated_indexes) /\
  exists a' : array,
    Avx2_32_Float.Store_i false 64 Z.of_nat (Avx2_32_Float.Make ten_to_seventeen) six_cells
      (Avx2_32_Int.Make repeated_indexes) = Ok a' /\
    arr_data a' !! 0%nat = Some (Some 17) /\
    arr_data a' !! 2%nat = Some (Some 92).
Proof.
  assert (Hbounds : Forall (fun k => 0 <= k < Z.of_nat (length (arr_data six_cells)))
                           (lanes repeated_indexes)).
  { repeat constructor; cbn; lia. }
  split; [exact sixty_four_fits |]. split; [reflexivity |]. split; [exact Hbounds |].
  pose proof (scatter_Store_writes_in_lane_order false 64 Z.of_nat sixty_four_fits
                (Avx2_32_Float.Make ten_to_seventeen) six_cells
                (Avx2_32_Int.Make repeated_indexes) eq_refl Hbounds) as T.
  cbv zeta in T. destruct T as (a' & Hstore & _ & _ & _ & Huntouched & Hlast).
  exists a'. split; [exact Hstore |]. split.
  - apply (Hlast 7%nat 0 17); [reflexivity | reflexivity |].
    intros n' k' Hlt Hk'. do 8 (destruct n' as [| n']; [lia |]). discriminate.
  - rewrite (Huntouched 2%nat); [reflexivity |].
    intros n k Hk. do 8 (destruct n as [| n]; [injection Hk as <-; cbn; lia |]). discriminate.
Defined.

Lemma FreeObjectiveWrapperInternals_releases_both_payloads_witness :
  payloads (wrapper bound_state) ⊆ live bound_state /\
  (m_pObjective (wrapper bound_state) = NULL \/
   m_pObjective (wrapper bound_state) <> m_pFunctionPointersCpp (wrapper bound_state)) /\
  exists st' : State,
    FreeObjectiveWrapperInternals bound_state = Some st' /\
    wrapper st' = bound_wrapper /\
    (2%positive ∉ live st') /\ (1%positive ∉ live st') /\ (7%positive ∈ live st').
Proof.
  assert (Hlive : payloads (wrapper bound_state) ⊆ live bound_state).
  { unfold payloads, bound_state, bound_wrapper, block_of. cbn. set_solver. }
  assert (Hdistinct : m_pObjective (wrapper bound_state) = NULL \/
                      m_pObjective (wrapper bound_state)
                        <> m_pFunctionPointersCpp (wrapper bound_state)).
  { right. discriminate. }
  split; [exact Hlive |]. split; [exact Hdistinct |].
  pose proof (FreeObjectiveWrapperInternals_releases_both_payloads bound_state Hlive Hdistinct) as T.
  cbv zeta in T. destruct T as (st' & Hfree & Hw & _ & Hobj & Hfun & Hother).
  exists st'. split; [exact Hfree |]. split; [exact Hw |].
  split; [exact (Hobj 2%positive eq_refl) |]. split; [exact (Hfun 1%positive eq_refl) |].
  apply Hother.
  - unfold payloads, bound_state, bound_wrapper, block_of. cbn. set_solver.
  - unfold bound_state. cbn. set_solver.
Defined.


Lemma Sum_adds_all_lanes_pairwise_witness :
  (forall x y z : Z, x + (y + z) = x + y + z) /\
  (forall x y : Z, x + y = y + x) /\
  Avx2_32_Float.Sum Z.add (Avx2_32_Float.Make ten_to_seventeen) = 108.
Proof.
  split; [exact Z.add_assoc |]. split; [exact Z.add_comm |].
  exact (proj2 (Sum_adds_all_lanes_pairwise Z.add (Avx2_32_Float.Make ten_to_seventeen))
           Z.add_assoc Z.add_comm).
Defined.

(* ===================================================================== *)
(** * Integer lanes: arithmetic modulo 2^32 *)
(* ===================================================================== *)

Lemma wrap32_uint32 x : uint32 (wrap32 x).
Proof. unfold uint32, wrap32. apply Z.mod_pos_bound. lia. Qed.

Lemma wrap32_id x : uint32 x -> wrap32 x = x.
Proof. unfold uint32, wrap32. intros Hx. now apply Z.mod_small. Qed.

Lemma wrap32_add x y z : wrap32 (wrap32 (x + y) + z) = wrap32 (x + wrap32 (y + z)).
Proof.
  unfold wrap32. rewrite Z.add_mod_idemp_l, Z.add_mod_idemp_r by lia.
  f_equal. lia.
Qed.

Lemma wrap32_mul_r x k : wrap32 (x * wrap32 k) = wrap32 (x * k).
Proof. unfold wrap32. now rewrite Z.mul_mod_idemp_r by lia. Qed.

Lemma wrap32_mul_l x k : wrap32 (wrap32 x * k) = wrap32 (x * k).
Proof. unfold wrap32. now rewrite Z.mul_mod_idemp_l by lia. Qed.

Lemma wrap32_mul_add x y k :
  wrap32 (wrap32 (x + y) * k) = wrap32 (wrap32 (x * k) + wrap32 (y * k)).
Proof.
  unfold wrap32. rewrite Z.mul_mod_idemp_l by lia.
  rewrite <- Z.add_mod by lia. f_equal. lia.
Qed.

(** X1.  [operator+] of the integer lanes adds lane by lane and keeps the low
    32 bits: lane [i] of [a + b] is [(a_i + b_i) mod 2^32].  So the sum is
    commutative and associative whatever the lanes hold, a sum that passes
    2^32 wraps around, and every lane of a sum is a 32-bit number. *)
Theorem Int_operator_plus_is_addition_modulo_2_32 :
  forall a b c : Avx2_32_Int.t,
    let plus := Avx2_32_Int.operator_plus in
    lanes (Avx2_32_Int.m_data (plus a b)) =
      zip_with (fun x y => (x + y) mod 2 ^ 32)
               (lanes (Avx2_32_Int.m_data a)) (lanes (Avx2_32_Int.m_data b)) /\
    plus a b = plus b a /\
    plus (plus a b) c = plus a (plus b c) /\
    plus (Avx2_32_Int.broadcast 0xFFFFFFFF) (Avx2_32_Int.broadcast 1) = Avx2_32_Int.broadcast 0 /\
    wf_lanes (Avx2_32_Int.m_data (plus a b)).
Proof.
  intros [[a0 a1 a2 a3 a4 a5 a6 a7]] [[b0 b1 b2 b3 b4 b5 b6 b7]]
         [[c0 c1 c2 c3 c4 c5 c6 c7]] plus. subst plus.
  unfold Avx2_32_Int.operator_plus, _mm256_add_epi32, map2_lanes, wf_lanes, lanes.
  cbn [Avx2_32_Int.m_data lane0 lane1 lane2 lane3 lane4 lane5 lane6 lane7].
  split; [reflexivity |]. split; [| split; [| split]].
  - now rewrite !(Z.add_comm a0), !(Z.add_comm a1), !(Z.add_comm a2), !(Z.add_comm a3),
      !(Z.add_comm a4), !(Z.add_comm a5), !(Z.add_comm a6), !(Z.add_comm a7).
  - now rewrite !wrap32_add.
  - reflexivity.
  - repeat (constructor; [apply wrap32_uint32 |]). constructor.
Qed.

(** X2.  [operator*] multiplies every lane by the scalar and keeps the low 32
    bits.  It distributes over [operator+], two multiplications in a row are
    one multiplication by the product, and only the low 32 bits of the scalar
    matter. *)
Theorem Int_operator_mul_is_multiplication_modulo_2_32 :
  forall (a b : Avx2_32_Int.t) (k m : Z),
    let plus := Avx2_32_Int.operator_plus in
    let mul := Avx2_32_Int.operator_mul in
    lanes (Avx2_32_Int.m_data (mul a k)) =
      (fun x => (x * k) mod 2 ^ 32) <$> lanes (Avx2_32_Int.m_data a) /\
    mul (plus a b) k = plus (mul a k) (mul b k) /\
    mul (mul a k) m = mul a (k * m) /\
    mul a (k + 2 ^ 32) = mul a k /\
    wf_lanes (Avx2_32_Int.m_data (mul a k)).
Proof.
  intros [[a0 a1 a2 a3 a4 a5 a6 a7]] [[b0 b1 b2 b3 b4 b5 b6 b7]] k m plus mul. subst plus mul.
  unfold Avx2_32_Int.operator_plus, Avx2_32_Int.operator_mul, _mm256_add_epi32,
    _mm256_mullo_epi32, _mm256_set1_epi32, map2_lanes, wf_lanes, lanes.
  cbn [Avx2_32_Int.m_data lane0 lane1 lane2 lane3 lane4 lane5 lane6 lane7 fmap list_fmap].
  rewrite !wrap32_mul_r.
  split; [reflexivity |]. split; [| split; [| split]].
  - now rewrite !wrap32_mul_add.
  - rewrite !wrap32_mul_l. now rewrite !Z.mul_assoc.
  - assert (Hk : forall x, wrap32 (x * (k + 2 ^ 32)) = wrap32 (x * k)).
    { intros x. unfold wrap32. rewrite Z.mul_add_distr_l, Z.mod_add; [reflexivity | lia]. }
    now rewrite !Hk.
  - repeat (constructor; [apply wrap32_uint32 |]). constructor.
Qed.

(* ===================================================================== *)
(** * Integer lanes: shifts and bit fields *)
(* ===================================================================== *)

Lemma shift_count s : 0 <= s < 256 -> Z.land s 0xFF = s.
Proof.
  intros Hs. change 0xFF with (Z.ones 8).
  rewrite Z.land_ones by lia. apply Z.mod_small. lia.
Qed.

Lemma pow2_32_le s : 32 <= s -> 2 ^ s = 2 ^ 32 * 2 ^ (s - 32).
Proof. intros Hs. rewrite <- Z.pow_add_r by lia. f_equal. lia. Qed.

Lemma srl_lane s x :
  0 <= s < 256 -> uint32 x ->
  (if 31 <? s then 0 else Z.shiftr x s) = x / 2 ^ s.
Proof.
  unfold uint32. intros Hs Hx. destruct (Z.ltb_spec 31 s) as [Hbig | Hsmall].
  - symmetry. apply Z.div_small. split; [lia |].
    rewrite pow2_32_le by lia.
    assert (0 < 2 ^ (s - 32)) by (apply Z.pow_pos_nonneg; lia). nia.
  - apply Z.shiftr_div_pow2. lia.
Qed.

Lemma sll_lane s x :
  0 <= s < 256 ->
  (if 31 <? s then 0 else wrap32 (Z.shiftl x s)) = wrap32 (x * 2 ^ s).
Proof.
  intros Hs. destruct (Z.ltb_spec 31 s) as [Hbig | Hsmall].
  - rewrite pow2_32_le by lia. unfold wrap32.
    rewrite (Z.mul_comm (2 ^ 32)), Z.mul_assoc. symmetry. apply Z.mod_mul. lia.
  - now rewrite Z.shiftl_mul_pow2 by lia.
Qed.

Lemma div_pow2_uint32 s x : 0 <= s -> uint32 x -> uint32 (x / 2 ^ s).
Proof.
  unfold uint32. intros Hs Hx.
  assert (0 < 2 ^ s) by (apply Z.pow_pos_nonneg; lia).
  split; [apply Z.div_pos; lia |].
  apply Z.le_lt_trans with x; [| lia].
  apply Z.div_le_upper_bound; [lia | nia].
Qed.

Lemma div_pow2_twice s t x : 0 <= s -> 0 <= t -> x / 2 ^ s / 2 ^ t = x / 2 ^ (s + t).
Proof.
  intros Hs Ht. rewrite Z.pow_add_r by lia.
  assert (0 < 2 ^ s) by (apply Z.pow_pos_nonneg; lia).
  assert (0 < 2 ^ t) by (apply Z.pow_pos_nonneg; lia).
  apply Z.div_div; lia.
Qed.

(** X3.  On lanes that hold 32-bit numbers and for a count below 256,
    [operator>>] divides every lane by [2^shift], rounding down, and
    [operator<<] multiplies every lane by [2^shift] modulo 2^32, so it is
    [operator*] by that power of two.  A count of 32 or more does not wrap
    around: it clears every lane.  Two right shifts in a row are one right
    shift by the sum of the counts. *)
Theorem Int_shifts_scale_by_powers_of_two :
  forall (a : Avx2_32_Int.t) (shift more : Z),
    wf_lanes (Avx2_32_Int.m_data a) ->
    0 <= shift -> 0 <= more -> shift + more < 256 ->
    let shr := Avx2_32_Int.operator_shr in
    let shl := Avx2_32_Int.operator_shl in
    lanes (Avx2_32_Int.m_data (shr a shift)) =
      (fun x => x / 2 ^ shift) <$> lanes (Avx2_32_Int.m_data a) /\
    lanes (Avx2_32_Int.m_data (shl a shift)) =
      (fun x => (x * 2 ^ shift) mod 2 ^ 32) <$> lanes (Avx2_32_Int.m_data a) /\
    shl a shift = Avx2_32_Int.operator_mul a (2 ^ shift) /\
    (if 32 <=? shift
     then shr a shift = Avx2_32_Int.broadcast 0 /\ shl a shift = Avx2_32_Int.broadcast 0
     else True) /\
    shr (shr a shift) more = shr a (shift + more) /\
    wf_lanes (Avx2_32_Int.m_data (shr a shift)) /\
    wf_lanes (Avx2_32_Int.m_data (shl a shift)).
Proof.
  intros [[a0 a1 a2 a3 a4 a5 a6 a7]] s t Hwf Hs Ht Hst shr shl. subst shr shl.
  unfold wf_lanes, lanes in Hwf.
  cbn [Avx2_32_Int.m_data lane0 lane1 lane2 lane3 lane4 lane5 lane6 lane7] in Hwf.
  rewrite !Forall_cons in Hwf. destruct Hwf as (H0 & H1 & H2 & H3 & H4 & H5 & H6 & H7 & _).
  unfold Avx2_32_Int.operator_shr, Avx2_32_Int.operator_shl, Avx2_32_Int.operator_mul,
    Avx2_32_Int.broadcast, _mm256_srli_epi32, _mm256_slli_epi32, _mm256_mullo_epi32,
    _mm256_set1_epi32, map_lanes, map2_lanes, wf_lanes, lanes.
  cbv zeta.
  cbn [Avx2_32_Int.m_data lane0 lane1 lane2 lane3 lane4 lane5 lane6 lane7 fmap list_fmap].
  rewrite !(shift_count s), !(shift_count t), !(shift_count (s + t)) by lia.
  rewrite !sll_lane, !wrap32_mul_r by lia.
  rewrite !(srl_lane s) by first [lia | assumption].
  rewrite !(srl_lane t) by first [lia | apply div_pow2_uint32; [lia | assumption]].
  rewrite !(srl_lane (s + t)) by first [lia | assumption].
  rewrite !div_pow2_twice by lia.
  split; [reflexivity |]. split; [reflexivity |]. split; [reflexivity |].
  split; [| split; [reflexivity | split]].
  - destruct (Z.leb_spec 32 s) as [Hbig | Hsmall]; [| exact I].
    assert (Hshr : forall x, uint32 x -> x / 2 ^ s = wrap32 0).
    { intros x Hx. rewrite <- (srl_lane s x) by first [lia | assumption].
      destruct (Z.ltb_spec 31 s); [reflexivity | lia]. }
    assert (Hshl : forall x, wrap32 (x * 2 ^ s) = wrap32 0).
    { intros x. rewrite <- (sll_lane s x) by lia.
      destruct (Z.ltb_spec 31 s); [reflexivity | lia]. }
    rewrite !Hshl.
    rewrite (Hshr a0 H0), (Hshr a1 H1), (Hshr a2 H2), (Hshr a3 H3),
      (Hshr a4 H4), (Hshr a5 H5), (Hshr a6 H6), (Hshr a7 H7).
    split; reflexivity.
  - repeat (constructor; [apply div_pow2_uint32; [lia | assumption] |]). constructor.
  - repeat (constructor; [apply wrap32_uint32 |]). constructor.
Qed.

Lemma carried_item s b x item :
  0 <= s -> 0 <= b -> carries s b x item -> (x / 2 ^ s) mod 2 ^ b = item.
Proof.
  intros Hs Hb (below & above & Hbelow & Habove & Hitem & ->).
  assert (0 < 2 ^ s) by (apply Z.pow_pos_nonneg; lia).
  assert (0 < 2 ^ b) by (apply Z.pow_pos_nonneg; lia).
  rewrite Z.pow_add_r by lia.
  replace (above * (2 ^ s * 2 ^ b) + item * 2 ^ s + below)
    with ((above * 2 ^ b + item) * 2 ^ s + below) by lia.
  rewrite Z.div_add_l by lia. rewrite (Z.div_small below) by lia.
  rewrite Z.add_0_r, Z.add_comm, Z.mod_add by lia.
  apply Z.mod_small. lia.
Qed.

Lemma field_lane s b x :
  0 <= s < 32 -> 0 <= b <= 32 ->
  Z.land (wrap32 (2 ^ b - 1)) (if 31 <? s then 0 else Z.shiftr x s) = (x / 2 ^ s) mod 2 ^ b.
Proof.
  intros Hs Hb.
  assert (Hle : 2 ^ b <= 2 ^ 32) by (apply Z.pow_le_mono_r; lia).
  assert (0 < 2 ^ b) by (apply Z.pow_pos_nonneg; lia).
  rewrite wrap32_id by (unfold uint32; lia).
  destruct (Z.ltb_spec 31 s); [lia |].
  rewrite Z.shiftr_div_pow2 by lia.
  rewrite Z.land_comm. replace (2 ^ b - 1) with (Z.ones b) by (rewrite Z.ones_equiv; lia).
  apply Z.land_ones. lia.
Qed.

(** X4.  Shifting right by [shift] and masking with [2^bits - 1] broadcast to
    every lane reads the bit field of [bits] bits at bit [shift] of every
    lane.  So when every lane carries an item in that field, whatever is
    packed below and above it, the result holds exactly the items, lane by
    lane.  The mask may be given on either side of [operator&]. *)
Theorem shift_and_mask_read_a_bit_field :
  forall (a : Avx2_32_Int.t) (shift bits : Z) (items : list Z),
    0 <= shift < 32 -> 0 <= bits <= 32 ->
    Forall2 (carries shift bits) (lanes (Avx2_32_Int.m_data a)) items ->
    let mask := Avx2_32_Int.broadcast (2 ^ bits - 1) in
    let field := Avx2_32_Int.operator_and (Avx2_32_Int.operator_shr a shift) mask in
    lanes (Avx2_32_Int.m_data field) =
      (fun x => (x / 2 ^ shift) mod 2 ^ bits) <$> lanes (Avx2_32_Int.m_data a) /\
    lanes (Avx2_32_Int.m_data field) = items /\
    Avx2_32_Int.operator_and mask (Avx2_32_Int.operator_shr a shift) = field.
Proof.
  intros [[a0 a1 a2 a3 a4 a5 a6 a7]] s b items Hs Hb Hitems mask field.
  assert (Hfield : lanes (Avx2_32_Int.m_data field) =
    (fun x => (x / 2 ^ s) mod 2 ^ b) <$> [a0; a1; a2; a3; a4; a5; a6; a7]).
  { subst field mask.
    unfold Avx2_32_Int.operator_and, Avx2_32_Int.operator_shr, Avx2_32_Int.broadcast,
      _mm256_and_si256, _mm256_srli_epi32, _mm256_set1_epi32, map_lanes, map2_lanes, lanes.
    cbv zeta.
    cbn [Avx2_32_Int.m_data lane0 lane1 lane2 lane3 lane4 lane5 lane6 lane7 fmap list_fmap].
    rewrite !(shift_count s) by lia.
    now rewrite !field_lane by lia. }
  split; [exact Hfield |]. split.
  - rewrite Hfield. unfold lanes in Hitems.
    cbn [Avx2_32_Int.m_data lane0 lane1 lane2 lane3 lane4 lane5 lane6 lane7] in Hitems.
    clear Hfield field. revert Hitems.
    generalize [a0; a1; a2; a3; a4; a5; a6; a7]. intros l Hitems.
    induction Hitems as [| x item l items Hx _ IH]; [reflexivity |].
    cbn [fmap list_fmap]. f_equal; [| exact IH].
    apply carried_item; [lia | lia | exact Hx].
  - subst field mask.
    unfold Avx2_32_Int.operator_and, _mm256_and_si256, map2_lanes.
    f_equal. f_equal; apply Z.land_comm.
Qed.

(* ===================================================================== *)
(** * Moving registers to and from memory *)
(* ===================================================================== *)

Lemma EBM_ASSERT_cases NDEBUG cond :
  EBM_ASSERT NDEBUG cond = Ok tt \/ EBM_ASSERT NDEBUG cond = AssertionFailed.
Proof. destruct NDEBUG, cond; cbn; auto. Qed.

Lemma read8_write8 r d : read8 (write8 r d) = Some r.
Proof. now destruct r. Qed.

Lemma write8_read8 r d : read8 d = Some r -> write8 r d = d.
Proof.
  unfold read8, write8.
  destruct d as [| [v0 |] [| [v1 |] [| [v2 |] [| [v3 |] [| [v4 |] [| [v5 |] [| [v6 |] [| [v7 |] d]]]]]]]];
    try discriminate.
  now intros [= <-].
Qed.

Lemma store_then_load a a' r :
  _mm256_store_si256 a r = Ok a' ->
  IsAligned a 32 = true /\ a' = Array (arr_addr a) (write8 r (arr_data a)) /\
  _mm256_load_si256 a' = Ok r.
Proof.
  unfold _mm256_store_si256, _mm256_load_si256, sizeof_m256.
  destruct (IsAligned a 32) eqn:Hal; [| discriminate].
  destruct (8 <=? length (arr_data a))%nat; [| discriminate].
  cbn [andb]. intros [= <-]. split; [reflexivity |]. split; [reflexivity |].
  unfold IsAligned in *. cbn [arr_addr arr_data]. now rewrite Hal, read8_write8.
Qed.

Lemma load_then_store a r :
  _mm256_load_si256 a = Ok r ->
  IsAligned a 32 = true /\ _mm256_store_si256 a r = Ok a.
Proof.
  unfold _mm256_store_si256, _mm256_load_si256, sizeof_m256.
  destruct (IsAligned a 32) eqn:Hal; [| discriminate].
  destruct (read8 (arr_data a)) as [r' |] eqn:Hread; [| discriminate].
  intros [= <-]. split; [reflexivity |].
  assert (Hlen : (8 <=? length (arr_data a))%nat = true).
  { apply Nat.leb_le. rewrite <- (write8_read8 _ _ Hread). unfold write8.
    rewrite length_app, length_fmap, length_lanes. lia. }
  rewrite Hlen. cbn [andb]. rewrite (write8_read8 _ _ Hread). now destruct a.
Qed.

Lemma length_write8 r d : (8 <= length d)%nat -> length (write8 r d) = length d.
Proof.
  intros Hd. unfold write8. rewrite length_app, length_fmap, length_lanes, length_drop. lia.
Qed.

(** X6.  What a contiguous [Store] wrote, [Load] reads back: when [Store]
    returns, loading from the same pointer gives the register that was
    stored, bit for bit.  The store changed the first eight cells only: the
    array has the length it had and the cells from the ninth on hold what
    they held.  This is so for the float lanes and for the integer lanes. *)
Theorem Store_then_Load_gives_back_the_register :
  forall (NDEBUG : bool) (val : Avx2_32_Float.t) (ival : Avx2_32_Int.t) (a a' b b' : array),
    Avx2_32_Float.Store NDEBUG val a = Ok a' ->
    Avx2_32_Int.Store NDEBUG ival b = Ok b' ->
    (Avx2_32_Float.Load NDEBUG a' = Ok val /\
     arr_addr a' = arr_addr a /\ length (arr_data a') = length (arr_data a) /\
     drop 8 (arr_data a') = drop 8 (arr_data a)) /\
    (Avx2_32_Int.Load NDEBUG b' = Ok ival /\
     arr_addr b' = arr_addr b /\ length (arr_data b') = length (arr_data b) /\
     drop 8 (arr_data b') = drop 8 (arr_data b)).
Proof.
  intros NDEBUG [r] [ir] a a' b b'.
  unfold Avx2_32_Float.Store, Avx2_32_Float.Load, Avx2_32_Int.Store, Avx2_32_Int.Load,
    _mm256_store_ps, _mm256_load_ps, Avx2_32_Float.sizeof_TPack, Avx2_32_Int.sizeof_TPack,
    sizeof_m256.
  cbn [Avx2_32_Float.m_data Avx2_32_Int.m_data].
  assert (Hmove : forall (c c' : array) (x : m256),
    (_ ← EBM_ASSERT NDEBUG (IsAligned c 32); _mm256_store_si256 c x) = Ok c' ->
    (EBM_ASSERT NDEBUG (IsAligned c' 32) = Ok tt /\ _mm256_load_si256 c' = Ok x) /\
    arr_addr c' = arr_addr c /\ length (arr_data c') = length (arr_data c) /\
    drop 8 (arr_data c') = drop 8 (arr_data c)).
  { intros c c' x Hstore.
    destruct (EBM_ASSERT_cases NDEBUG (IsAligned c 32)) as [Hassert | Hassert];
      rewrite Hassert in Hstore; [| discriminate].
    cbn [mbind result_bind] in Hstore.
    assert (Hlen : (8 <= length (arr_data c))%nat).
    { unfold _mm256_store_si256 in Hstore.
      destruct (8 <=? length (arr_data c))%nat eqn:Hlen; [now apply Nat.leb_le in Hlen |].
      rewrite andb_false_r in Hstore. discriminate. }
    destruct (store_then_load c c' x Hstore) as (Hal & -> & Hload).
    unfold IsAligned in *. cbn [arr_addr arr_data].
    rewrite Hal, EBM_ASSERT_true.
    split; [split; [reflexivity | exact Hload] |]. split; [reflexivity |].
    split; [now apply length_write8 |].
    unfold write8. rewrite drop_app_length'; [reflexivity |].
    now rewrite length_fmap, length_lanes. }
  intros Hfloat Hint.
  destruct (Hmove a a' r Hfloat) as ((Hassert & Hload) & Hrest).
  destruct (Hmove b b' ir Hint) as ((Hiassert & Hiload) & Hirest).
  rewrite Hassert, Hload, Hiassert, Hiload. cbn [mbind result_bind]. auto.
Qed.

(** X7.  What a contiguous [Load] read, [Store] writes back unchanged: when
    [Load] returns a register, storing that register to the same pointer
    returns and leaves the array exactly as it was.  This is so for the
    float lanes and for the integer lanes. *)
Theorem Load_then_Store_leaves_the_array :
  forall (NDEBUG : bool) (val : Avx2_32_Float.t) (ival : Avx2_32_Int.t) (a b : array),
    Avx2_32_Float.Load NDEBUG a = Ok val ->
    Avx2_32_Int.Load NDEBUG b = Ok ival ->
    Avx2_32_Float.Store NDEBUG val a = Ok a /\
    Avx2_32_Int.Store NDEBUG ival b = Ok b.
Proof.
  intros NDEBUG val ival a b.
  unfold Avx2_32_Float.Store, Avx2_32_Float.Load, Avx2_32_Int.Store, Avx2_32_Int.Load,
    _mm256_store_ps, _mm256_load_ps, Avx2_32_Float.sizeof_TPack, Avx2_32_Int.sizeof_TPack,
    sizeof_m256.
  assert (Hmove : forall (c : array) (x : m256),
    (_ ← EBM_ASSERT NDEBUG (IsAligned c 32); _mm256_load_si256 c) = Ok x ->
    (_ ← EBM_ASSERT NDEBUG (IsAligned c 32); _mm256_store_si256 c x) = Ok c).
  { intros c x Hload.
    destruct (EBM_ASSERT_cases NDEBUG (IsAligned c 32)) as [Hassert | Hassert];
      rewrite Hassert in *; [| discriminate].
    cbn [mbind result_bind] in *.
    now apply load_then_store in Hload as [_ Hstore]. }
  intros Hfloat Hint. split.
  - apply Hmove.
    destruct (EBM_ASSERT NDEBUG (IsAligned a 32)) as [[] | |]; try discriminate.
    cbn [mbind result_bind] in *.
    destruct (_mm256_load_si256 a) as [x | |]; try discriminate.
    cbn [mbind result_bind] in *. now injection Hfloat as <-.
  - apply Hmove.
    destruct (EBM_ASSERT NDEBUG (IsAligned b 32)) as [[] | |]; try discriminate.
    cbn [mbind result_bind] in *.
    destruct (_mm256_load_si256 b) as [x | |]; try discriminate.
    cbn [mbind result_bind] in *. now injection Hint as <-.
Qed.

Lemma index_cell addr d k v :
  0 <= k -> d !! Z.to_nat k = Some (Some v) -> index (Array addr d) k = Ok v.
Proof.
  intros Hk Hd. unfold index; cbn [arr_data].
  destruct (Z.ltb_spec k 0); [lia |]. now rewrite Hd.
Qed.

Lemma signed32_small k : 0 <= k < 2 ^ 31 -> signed32 k = k.
Proof. intros Hk. unfold signed32. destruct (Z.ltb_spec k (2 ^ 31)); [reflexivity | lia]. Qed.

Section MemoryProperties.
Variable NDEBUG : bool.
Variable SIMD_BYTE_ALIGNMENT : Z.
Variable slot : nat -> Z.
Hypothesis SIMD_BYTE_ALIGNMENT_fits : (32 | SIMD_BYTE_ALIGNMENT).

Lemma LoadBytes_outcome (nd : bool) (a : array) :
  Avx2_32_Int.LoadBytes nd SIMD_BYTE_ALIGNMENT slot a =
    _ ← EBM_ASSERT nd (IsAligned a 8);
    match read8 (arr_data a) with
    | Some r => Ok (Avx2_32_Int.Make r)
    | None => Undefined
    end.
Proof using SIMD_BYTE_ALIGNMENT_fits.
  destruct a as [addr d]. unfold Avx2_32_Int.LoadBytes.
  change (1 * Avx2_32_Int.k_cSIMDPack) with 8.
  destruct (EBM_ASSERT nd (IsAligned (Array addr d) 8)) as [[] | |]; [| reflexivity ..].
  cbn [mbind result_bind].
  pose proof (automatic_array_aligned SIMD_BYTE_ALIGNMENT slot SIMD_BYTE_ALIGNMENT_fits 0) as Ha.
  unfold alignas_array in *. cbn [arr_addr] in Ha.
  generalize dependent (SIMD_BYTE_ALIGNMENT * slot 0). intros tmp Ha.
  destruct d as [| [v0 |] [| [v1 |] [| [v2 |] [| [v3 |] [| [v4 |] [| [v5 |] [| [v6 |] [| [v7 |] d]]]]]]]];
    try reflexivity.
  cbv -[Z.modulo Z.eqb]. rewrite Ha. now destruct nd.
Qed.

(** X5.  [LoadBytes] widens the eight bytes at the pointer to the eight
    lanes, byte [k] to lane [k].  The only alignment it asks of the pointer
    is eight bytes, and only in a build with assertions: there a pointer
    that is not a multiple of eight trips the assertion; without assertions
    the bytes are read wherever the pointer points.  Fewer than eight
    readable bytes is undefined. *)
Theorem LoadBytes_widens_eight_bytes :
  forall a : array,
    let outcome := match read8 (arr_data a) with
                   | Some r => Ok (Avx2_32_Int.Make r)
                   | None => Undefined
                   end in
    Avx2_32_Int.LoadBytes true SIMD_BYTE_ALIGNMENT slot a = outcome /\
    Avx2_32_Int.LoadBytes false SIMD_BYTE_ALIGNMENT slot a =
      (if arr_addr a mod 8 =? 0 then outcome else AssertionFailed).
Proof using SIMD_BYTE_ALIGNMENT_fits.
  intros a outcome. subst outcome.
  rewrite !LoadBytes_outcome, EBM_ASSERT_release, EBM_ASSERT_debug.
  unfold IsAligned. split; [reflexivity |].
  now destruct (arr_addr a mod 8 =? 0).
Qed.

Lemma gather_in_lane_order (a : array) :
  _mm256_i32gather_ps a (Avx2_32_Int.m_data Avx2_32_Int.MakeIndexes) =
    match read8 (arr_data a) with Some r => Ok r | None => Undefined end.
Proof.
  destruct a as [addr d].
  destruct d as [| [v0 |] [| [v1 |] [| [v2 |] [| [v3 |] [| [v4 |] [| [v5 |] [| [v6 |] [| [v7 |] d]]]]]]]];
    reflexivity.
Qed.

Lemma scatter_in_lane_order (r : m256) (d : list (option Z)) :
  (8 <= length d)%nat ->
  scatter d (zip (lanes (Avx2_32_Int.m_data Avx2_32_Int.MakeIndexes)) (lanes r)) = write8 r d.
Proof.
  intros Hd.
  destruct d as [| c0 [| c1 [| c2 [| c3 [| c4 [| c5 [| c6 [| c7 d]]]]]]]];
    cbn [length] in Hd; try lia.
  now destruct r.
Qed.

(** X8.  With the indexes of [MakeIndexes], the gather and the scatter are
    the contiguous moves: on a pointer aligned for the register, the gather
    [Load] through [MakeIndexes] is the contiguous [Load], and the scatter
    [Store] through [MakeIndexes] is the contiguous [Store], also where
    these are undefined (fewer than eight cells, or a cell without a
    value). *)
Theorem MakeIndexes_gather_scatter_are_the_contiguous_moves :
  forall (val : Avx2_32_Float.t) (a : array),
    IsAligned a 32 = true ->
    Avx2_32_Float.Load_i NDEBUG a Avx2_32_Int.MakeIndexes = Avx2_32_Float.Load NDEBUG a /\
    Avx2_32_Float.Store_i NDEBUG SIMD_BYTE_ALIGNMENT slot val a Avx2_32_Int.MakeIndexes =
      Avx2_32_Float.Store NDEBUG val a.
Proof using SIMD_BYTE_ALIGNMENT_fits.
  intros val a Hal. split.
  - unfold Avx2_32_Float.Load_i, Avx2_32_Float.Load, _mm256_load_ps, _mm256_load_si256,
      Avx2_32_Float.sizeof_TPack, sizeof_m256.
    now rewrite gather_in_lane_order, Hal.
  - destruct (Nat.le_gt_cases 8 (length (arr_data a))) as [Hlong | Hshort].
    + rewrite Store_i_is_scatter; [| exact SIMD_BYTE_ALIGNMENT_fits | exact Hal |].
      * rewrite scatter_in_lane_order by exact Hlong.
        unfold Avx2_32_Float.Store, _mm256_store_ps, _mm256_store_si256,
          Avx2_32_Float.sizeof_TPack, sizeof_m256.
        rewrite Hal, EBM_ASSERT_true. cbn [mbind result_bind andb].
        apply Nat.leb_le in Hlong. now rewrite Hlong.
      * unfold lanes, Avx2_32_Int.MakeIndexes, _mm256_set_epi32.
        cbn [Avx2_32_Int.m_data lane0 lane1 lane2 lane3 lane4 lane5 lane6 lane7].
        change [wrap32 0; wrap32 1; wrap32 2; wrap32 3; wrap32 4; wrap32 5; wrap32 6; wrap32 7]
          with [0; 1; 2; 3; 4; 5; 6; 7].
        repeat (constructor; [lia |]). constructor.
    + destruct val as [r], a as [addr d]. cbn [arr_data] in Hshort.
      unfold Avx2_32_Float.Store_i, Avx2_32_Float.Store at 2, _mm256_store_ps,
        Avx2_32_Float.sizeof_TPack, sizeof_m256, Avx2_32_Int.MakeIndexes.
      rewrite Hal, EBM_ASSERT_true. cbn [mbind result_bind].
      pose proof (automatic_array_aligned SIMD_BYTE_ALIGNMENT slot SIMD_BYTE_ALIGNMENT_fits 0) as Ha0.
      pose proof (automatic_array_aligned SIMD_BYTE_ALIGNMENT slot SIMD_BYTE_ALIGNMENT_fits 1) as Ha1.
      unfold alignas_array in *. cbn [arr_addr] in Ha0, Ha1.
      rewrite (proj2 (store_automatic_array NDEBUG _ _ Ha0)). cbn [mbind result_bind].
      rewrite (proj1 (store_automatic_array NDEBUG _ r Ha1)). cbn [mbind result_bind].
      unfold _mm256_store_si256, sizeof_m256. rewrite Hal. cbn [arr_data andb].
      apply Nat.leb_gt in Hshort. rewrite Hshort.
      apply Nat.leb_gt in Hshort. destruct r as [v0 v1 v2 v3 v4 v5 v6 v7].
      destruct d as [| c0 [| c1 [| c2 [| c3 [| c4 [| c5 [| c6 [| c7 d]]]]]]]];
        cbn [length] in Hshort; try lia; reflexivity.
Qed.

Lemma scattered_cell (d : list (option Z)) (ks vs : list Z) (n : nat) (k v : Z) :
  NoDup ks ->
  Forall (fun k => 0 <= k < Z.of_nat (length d)) ks ->
  ks !! n = Some k -> vs !! n = Some v ->
  scatter d (zip ks vs) !! Z.to_nat k = Some (Some v).
Proof.
  intros Hnodup Hbounds Hk Hv.
  assert (Hin : forall n' k', ks !! n' = Some k' -> 0 <= k' < Z.of_nat (length d)).
  { intros n' k' Hk'. rewrite Forall_lookup in Hbounds. exact (Hbounds n' k' Hk'). }
  apply (scatter_last_write d (zip ks vs) n (k, v)).
  - apply lookup_zip_with_Some. eauto.
  - intros n' [k' v'] Hlt Hw' Heq. cbn [fst] in Heq.
    apply lookup_zip_with_Some in Hw' as (x & y & [= -> ->] & Hx & _).
    pose proof (Hin _ _ Hk). pose proof (Hin _ _ Hx).
    assert (x = k) as -> by lia.
    pose proof (NoDup_lookup _ _ _ _ Hnodup Hk Hx). lia.
  - cbn [fst]. pose proof (Hin _ _ Hk). lia.
Qed.

(** X9.  The gather [Load] reads back what the scatter [Store] wrote through
    the same indexes: on an aligned array, with eight different indexes
    inside the array and below 2^31 (the scatter reads an index as an
    unsigned number, the gather as a signed one), the scatter returns and
    the gather from the array it leaves gives the register that was
    stored. *)
Theorem gather_after_scatter_gives_back_the_register :
  forall (val : Avx2_32_Float.t) (a : array) (i : Avx2_32_Int.t),
    IsAligned a 32 = true ->
    Forall (fun k => 0 <= k < Z.of_nat (length (arr_data a))) (lanes (Avx2_32_Int.m_data i)) ->
    Forall (fun k => k < 2 ^ 31) (lanes (Avx2_32_Int.m_data i)) ->
    NoDup (lanes (Avx2_32_Int.m_data i)) ->
    exists a' : array,
      Avx2_32_Float.Store_i NDEBUG SIMD_BYTE_ALIGNMENT slot val a i = Ok a' /\
      Avx2_32_Float.Load_i NDEBUG a' i = Ok val.
Proof using SIMD_BYTE_ALIGNMENT_fits.
  intros val a i Hal Hbounds Hsigned Hnodup.
  rewrite Store_i_is_scatter by assumption.
  eexists. split; [reflexivity |].
  unfold Avx2_32_Float.Load_i, Avx2_32_Float.sizeof_TPack, sizeof_m256.
  unfold IsAligned in *. cbn [arr_addr]. rewrite Hal, EBM_ASSERT_true.
  cbn [mbind result_bind].
  pose proof (fun n k v => scattered_cell (arr_data a) _ (lanes (Avx2_32_Float.m_data val))
                n k v Hnodup Hbounds) as Hcell.
  destruct i as [[k0 k1 k2 k3 k4 k5 k6 k7]], val as [[v0 v1 v2 v3 v4 v5 v6 v7]].
  unfold lanes in *.
  cbn [Avx2_32_Int.m_data Avx2_32_Float.m_data
       lane0 lane1 lane2 lane3 lane4 lane5 lane6 lane7] in *.
  rewrite !Forall_cons in Hbounds, Hsigned.
  destruct Hbounds as (B0 & B1 & B2 & B3 & B4 & B5 & B6 & B7 & _).
  destruct Hsigned as (S0 & S1 & S2 & S3 & S4 & S5 & S6 & S7 & _).
  unfold _mm256_i32gather_ps.
  cbn [lane0 lane1 lane2 lane3 lane4 lane5 lane6 lane7].
  rewrite !signed32_small by lia.
  rewrite (index_cell _ _ k0 v0) by (try lia; now apply (Hcell 0%nat)).
  rewrite (index_cell _ _ k1 v1) by (try lia; now apply (Hcell 1%nat)).
  rewrite (index_cell _ _ k2 v2) by (try lia; now apply (Hcell 2%nat)).
  rewrite (index_cell _ _ k3 v3) by (try lia; now apply (Hcell 3%nat)).
  rewrite (index_cell _ _ k4 v4) by (try lia; now apply (Hcell 4%nat)).
  rewrite (index_cell _ _ k5 v5) by (try lia; now apply (Hcell 5%nat)).
  rewrite (index_cell _ _ k6 v6) by (try lia; now apply (Hcell 6%nat)).
  rewrite (index_cell _ _ k7 v7) by (try lia; now apply (Hcell 7%nat)).
  reflexivity.
Qed.

Lemma collect_pure (f : Z -> Z) (r : m256) :
  collect_each (fun x (s : unit) => (f x, s)) (lanes r) tt = (lanes (map_lanes f r), tt).
Proof. now destruct r. Qed.

(** X11.  [Exp] and [Log] apply [std::exp] and [std::log] to every lane on
    its own: lane [i] of the result is the function of lane [i] of the
    argument.  They always return: the spill to the automatic array and the
    reload trip no assertion and are never undefined.  [Log] of [Exp] is the
    lanewise composition. *)
Theorem Exp_Log_apply_lanewise :
  forall (std_exp std_log : Z -> Z) (val : Avx2_32_Float.t),
    let Exp := Avx2_32_Float.Exp NDEBUG SIMD_BYTE_ALIGNMENT slot std_exp in
    let Log := Avx2_32_Float.Log NDEBUG SIMD_BYTE_ALIGNMENT slot std_log in
    Exp val = Ok (Avx2_32_Float.Make (map_lanes std_exp (Avx2_32_Float.m_data val))) /\
    Log val = Ok (Avx2_32_Float.Make (map_lanes std_log (Avx2_32_Float.m_data val))) /\
    (r ← Exp val; Log r) =
      Ok (Avx2_32_Float.Make (map_lanes (fun x => std_log (std_exp x)) (Avx2_32_Float.m_data val))).
Proof using SIMD_BYTE_ALIGNMENT_fits.
  intros std_exp std_log val Exp Log. subst Exp Log.
  assert (Happly : forall (f : Z -> Z) (v : Avx2_32_Float.t),
    (r ← Avx2_32_Float.ApplyFunc NDEBUG SIMD_BYTE_ALIGNMENT slot
           (fun x (s : unit) => (f x, s)) v tt; Ok r.1) =
    Ok (Avx2_32_Float.Make (map_lanes f (Avx2_32_Float.m_data v)))).
  { intros f v.
    rewrite (ApplyFunc_collects NDEBUG SIMD_BYTE_ALIGNMENT slot SIMD_BYTE_ALIGNMENT_fits).
    rewrite collect_pure. cbn [mbind result_bind fst]. now rewrite lanes_pack8. }
  unfold Avx2_32_Float.Exp, Avx2_32_Float.Log. rewrite !Happly.
  split; [reflexivity |]. split; [reflexivity |].
  cbn [mbind result_bind]. rewrite Happly. now destruct val as [[]].
Qed.

End MemoryProperties.

(* ===================================================================== *)
(** * Selecting one lane *)
(* ===================================================================== *)

(** X10.  Comparing [MakeIndexes] with a broadcast number selects one lane:
    [IfEqual(MakeIndexes(), k, trueVal, falseVal)] is [falseVal] with lane
    [k] taken from [trueVal], where [k] is the number reduced modulo 2^32.
    When that is 8 or more no lane matches and the result is [falseVal]. *)
Theorem IfEqual_on_MakeIndexes_selects_one_lane :
  forall (k : Z) (trueVal falseVal : Avx2_32_Float.t),
    let selected :=
      Avx2_32_Float.IfEqual Avx2_32_Int.MakeIndexes (Avx2_32_Int.broadcast k) trueVal falseVal in
    lanes (Avx2_32_Float.m_data selected) =
      imap (fun i xy => if Z.of_nat i =? k mod 2 ^ 32 then xy.1 else xy.2)
           (zip (lanes (Avx2_32_Float.m_data trueVal)) (lanes (Avx2_32_Float.m_data falseVal))) /\
    (if 8 <=? k mod 2 ^ 32 then selected = falseVal else True).
Proof.
  intros k [[t0 t1 t2 t3 t4 t5 t6 t7]] [[f0 f1 f2 f3 f4 f5 f6 f7]] selected. subst selected.
  unfold Avx2_32_Float.IfEqual, Avx2_32_Int.MakeIndexes, Avx2_32_Int.broadcast,
    _mm256_blendv_ps, _mm256_cmpeq_epi32, _mm256_castsi256_ps, _mm256_set_epi32,
    _mm256_set1_epi32, map3_lanes, map2_lanes, lanes.
  cbv zeta.
  cbn [Avx2_32_Float.m_data Avx2_32_Int.m_data lane0 lane1 lane2 lane3 lane4 lane5 lane6 lane7].
  rewrite !blend_on_mask. fold (wrap32 k).
  change (wrap32 0) with 0. change (wrap32 1) with 1. change (wrap32 2) with 2.
  change (wrap32 3) with 3. change (wrap32 4) with 4. change (wrap32 5) with 5.
  change (wrap32 6) with 6. change (wrap32 7) with 7.
  split; [reflexivity |].
  destruct (Z.leb_spec 8 (wrap32 k)) as [Hout | _]; [| exact I].
  destruct (Z.eqb_spec 0 (wrap32 k)); [lia |]. destruct (Z.eqb_spec 1 (wrap32 k)); [lia |].
  destruct (Z.eqb_spec 2 (wrap32 k)); [lia |]. destruct (Z.eqb_spec 3 (wrap32 k)); [lia |].
  destruct (Z.eqb_spec 4 (wrap32 k)); [lia |]. destruct (Z.eqb_spec 5 (wrap32 k)); [lia |].
  destruct (Z.eqb_spec 6 (wrap32 k)); [lia |]. destruct (Z.eqb_spec 7 (wrap32 k)); [lia |].
  reflexivity.
Qed.

(* ===================================================================== *)
(** * Negation, absolute value and subtraction as binary32 operations *)
(* ===================================================================== *)

Lemma abs_not_below_zero x : binary32_lt (Z.land x magnitude_mask) 0 = false.
Proof.
  unfold binary32_lt. rewrite clear_sign_is_SFabs.
  change (binary32_of_bits 0) with (S754_zero false).
  now destruct (binary32_of_bits x) as [[] | [] | | [] ? ?].
Qed.

(** X14.  On the value of every lane, unary minus is the IEEE negation and
    [Abs] the IEEE absolute value, zeros, infinities and NaNs included (a
    NaN stays a NaN).  No lane of [Abs] is less than zero. *)
Theorem negation_and_abs_are_the_IEEE_operations :
  forall v : Avx2_32_Float.t,
    Forall2 (fun x y => binary32_of_bits y = SFopp (binary32_of_bits x))
            (lanes (Avx2_32_Float.m_data v))
            (lanes (Avx2_32_Float.m_data (Avx2_32_Float.operator_neg v))) /\
    Forall2 (fun x y => binary32_of_bits y = SFabs (binary32_of_bits x))
            (lanes (Avx2_32_Float.m_data v))
            (lanes (Avx2_32_Float.m_data (Avx2_32_Float.Abs v))) /\
    Forall (fun y => binary32_lt y 0 = false)
           (lanes (Avx2_32_Float.m_data (Avx2_32_Float.Abs v))).
Proof.
  intros [[v0 v1 v2 v3 v4 v5 v6 v7]].
  unfold Avx2_32_Float.operator_neg, Avx2_32_Float.Abs.
  rewrite set1_sign_mask, set1_magnitude_mask.
  unfold _mm256_castsi256_ps, _mm256_castps_si256, _mm256_xor_si256, _mm256_and_ps,
    map2_lanes, lanes; cbn [Avx2_32_Float.m_data lane0 lane1 lane2 lane3 lane4 lane5 lane6 lane7].
  split; [| split].
  - repeat (constructor; [apply flip_sign_is_SFopp |]). constructor.
  - repeat (constructor; [apply clear_sign_is_SFabs |]). constructor.
  - repeat (constructor; [apply abs_not_below_zero |]). constructor.
Qed.

Lemma SFsub_is_SFadd_of_SFopp prec emax x y :
  SFsub prec emax x y = SFadd prec emax x (SFopp y).
Proof.
  destruct x as [sx | sx | | sx mx ex], y as [sy | sy | | sy my ey]; try reflexivity.
  - now destruct sx, sy.
  - now destruct sx, sy.
  - cbn [SFsub SFadd SFopp]. do 2 f_equal.
    destruct sy; cbn [negb cond_Zopp]; lia.
Qed.

Lemma sub_lane x y :
  binary32_of_bits (binary32_sub x y) =
  binary32_of_bits (binary32_add x (Z.lxor y sign_mask)).
Proof.
  unfold binary32_sub, binary32_add.
  now rewrite flip_sign_is_SFopp, SFsub_is_SFadd_of_SFopp.
Qed.

(** X15.  With the IEEE scalar subtraction and addition, every lane of
    [a - b] has the binary32 value of that lane of [a + (-b)], where [-b] is
    the unary minus of the source: subtracting is adding the lane with its
    sign bit flipped. *)
Theorem subtraction_is_addition_of_the_negation :
  forall a b : Avx2_32_Float.t,
    Forall2 (fun x y => binary32_of_bits x = binary32_of_bits y)
      (lanes (Avx2_32_Float.m_data (Avx2_32_Float.operator_minus binary32_sub a b)))
      (lanes (Avx2_32_Float.m_data
                (Avx2_32_Float.operator_plus binary32_add a (Avx2_32_Float.operator_neg b)))).
Proof.
  intros [[a0 a1 a2 a3 a4 a5 a6 a7]] [[b0 b1 b2 b3 b4 b5 b6 b7]].
  unfold Avx2_32_Float.operator_minus, Avx2_32_Float.operator_plus, Avx2_32_Float.operator_neg.
  rewrite set1_sign_mask.
  unfold _mm256_sub_ps, _mm256_add_ps, _mm256_castsi256_ps, _mm256_castps_si256,
    _mm256_xor_si256, map2_lanes, lanes.
  cbn [Avx2_32_Float.m_data lane0 lane1 lane2 lane3 lane4 lane5 lane6 lane7].
  repeat (constructor; [apply sub_lane |]). constructor.
Qed.

(* ===================================================================== *)
(** * Releasing a wrapper *)
(* ===================================================================== *)

(** X12.  [FreeObjectiveWrapperInternals] is defined exactly when each of the
    two payload pointers is [NULL] or a live block and the two are not one
    and the same block.  A dangling payload pointer, or one block held by
    both fields, makes the call undefined (a release of a block that is not
    live). *)
Theorem FreeObjectiveWrapperInternals_defined_iff :
  forall st : State,
    let w := wrapper st in
    is_Some (FreeObjectiveWrapperInternals st) <->
      payloads w ⊆ live st /\
      (m_pObjective w = NULL \/ m_pObjective w <> m_pFunctionPointersCpp w).
Proof.
  intros st w. subst w.
  unfold FreeObjectiveWrapperInternals, payloads, block_of, NULL.
  destruct (m_pObjective (wrapper st)) as [b1 |] eqn:H1,
           (m_pFunctionPointersCpp (wrapper st)) as [b2 |] eqn:H2.
  - destruct (decide (b1 ∈ live st)) as [Hb1 | Hb1].
    + rewrite free_live by exact Hb1. cbn [mbind option_bind wrapper]. rewrite H2.
      unfold free. cbn [live].
      case_decide as Hb2.
      * split; [intros _ | eauto]. split; [set_solver |]. right. intros [= ->]. set_solver.
      * split; [intros [? [=]] |]. intros [Hlive [[=] | Hne]].
        exfalso. apply Hb2. assert (b1 <> b2) by congruence. set_solver.
    + rewrite free_not_live by exact Hb1. cbn [mbind option_bind].
      split; [intros [? [=]] |]. intros [Hlive _]. exfalso. set_solver.
  - destruct (decide (b1 ∈ live st)) as [Hb1 | Hb1].
    + rewrite free_live by exact Hb1. cbn [mbind option_bind wrapper]. rewrite H2.
      split; [intros _ | cbn; eauto]. split; [set_solver | right; discriminate].
    + rewrite free_not_live by exact Hb1. cbn [mbind option_bind].
      split; [intros [? [=]] |]. intros [Hlive _]. exfalso. set_solver.
  - cbn [free mbind option_bind]. rewrite H2.
    unfold free. case_decide as Hb2.
    + split; [intros _ | eauto]. split; [set_solver | now left].
    + split; [intros [? [=]] |]. intros [Hlive _]. exfalso. set_solver.
  - cbn [free mbind option_bind]. rewrite H2. cbn [free].
    split; [intros _ | eauto]. split; [set_solver | now left].
Qed.

(** X13.  A release is good for one call.  After
    [FreeObjectiveWrapperInternals] returned on a wrapper that held a
    payload, the wrapper still holds the released pointers, so a second call
    is undefined; once [InitializeObjectiveWrapperUnfailing] has reset the
    wrapper, the call is defined again and releases nothing. *)
Theorem release_is_good_for_one_call :
  forall st st' : State,
    FreeObjectiveWrapperInternals st = Some st' ->
    payloads (wrapper st) <> ∅ ->
    let reset := with_wrapper (InitializeObjectiveWrapperUnfailing (wrapper st')) st' in
    wrapper st' = wrapper st /\
    FreeObjectiveWrapperInternals st' = None /\
    FreeObjectiveWrapperInternals reset = Some reset.
Proof.
  intros st st' Hfree Hown reset.
  split; [exact (proj1 (FreeObjectiveWrapperInternals_frame st st' Hfree)) |].
  split; [exact (second_release_is_undefined st st' Hfree Hown) |].
  subst reset. now destruct st'.
Qed.

(* ===================================================================== *)
(** * Further statements at concrete inputs *)
(* ===================================================================== *)

Lemma Int_shifts_scale_by_powers_of_two_witness :
  wf_lanes ten_to_seventeen /\
  lanes (Avx2_32_Int.m_data (Avx2_32_Int.operator_shr (Avx2_32_Int.Make ten_to_seventeen) 1)) =
    [5; 5; 6; 6; 7; 7; 8; 8] /\
  lanes (Avx2_32_Int.m_data (Avx2_32_Int.operator_shl (Avx2_32_Int.Make ten_to_seventeen) 1)) =
    [20; 22; 24; 26; 28; 30; 32; 34] /\
  Avx2_32_Int.operator_shr (Avx2_32_Int.operator_shr (Avx2_32_Int.Make ten_to_seventeen) 1) 2 =
    Avx2_32_Int.operator_shr (Avx2_32_Int.Make ten_to_seventeen) 3.
Proof.
  assert (Hwf : wf_lanes ten_to_seventeen).
  { unfold wf_lanes, uint32. repeat constructor; cbn; lia. }
  split; [exact Hwf |].
  pose proof (Int_shifts_scale_by_powers_of_two (Avx2_32_Int.Make ten_to_seventeen) 1 2 Hwf
                ltac:(lia) ltac:(lia) ltac:(lia)) as T.
  cbv zeta in T. destruct T as (Hshr & Hshl & _ & _ & Htwice & _).
  split; [exact Hshr |]. split; [exact Hshl | exact Htwice].
Defined.

Lemma shift_and_mask_read_a_bit_field_witness :
  Forall2 (carries 4 3) (lanes (M256 3 19 35 51 67 83 99 115)) [0; 1; 2; 3; 4; 5; 6; 7] /\
  lanes (Avx2_32_Int.m_data
           (Avx2_32_Int.operator_and
              (Avx2_32_Int.operator_shr (Avx2_32_Int.Make (M256 3 19 35 51 67 83 99 115)) 4)
              (Avx2_32_Int.broadcast 7))) = [0; 1; 2; 3; 4; 5; 6; 7].
Proof.
  assert (Hcarries : Forall2 (carries 4 3) (lanes (M256 3 19 35 51 67 83 99 115))
                             [0; 1; 2; 3; 4; 5; 6; 7]).
  { unfold lanes, carries. cbn [lane0 lane1 lane2 lane3 lane4 lane5 lane6 lane7].
    repeat (constructor; [exists 3, 0; cbn; lia |]). constructor. }
  split; [exact Hcarries |].
  pose proof (shift_and_mask_read_a_bit_field (Avx2_32_Int.Make (M256 3 19 35 51 67 83 99 115))
                4 3 [0; 1; 2; 3; 4; 5; 6; 7] ltac:(lia) ltac:(lia) Hcarries) as T.
  cbv zeta in T. destruct T as (_ & Hitems & _).
  exact Hitems.
Defined.

Lemma LoadBytes_widens_eight_bytes_witness :
  (32 | 64) /\
  Avx2_32_Int.LoadBytes true 64 Z.of_nat (Array 12 (Some <$> lanes ten_to_seventeen)) =
    Ok (Avx2_32_Int.Make ten_to_seventeen) /\
  Avx2_32_Int.LoadBytes false 64 Z.of_nat (Array 12 (Some <$> lanes ten_to_seventeen)) =
    AssertionFailed /\
  Avx2_32_Int.LoadBytes false 64 Z.of_nat (Array 8 (Some <$> lanes ten_to_seventeen)) =
    Ok (Avx2_32_Int.Make ten_to_seventeen) /\
  Avx2_32_Int.LoadBytes true 64 Z.of_nat (Array 8 [Some 1; Some 2; Some 3]) = Undefined.
Proof.
  split; [exact sixty_four_fits |].
  pose proof (LoadBytes_widens_eight_bytes 64 Z.of_nat sixty_four_fits) as T.
  split; [exact (proj1 (T (Array 12 (Some <$> lanes ten_to_seventeen)))) |].
  split; [exact (proj2 (T (Array 12 (Some <$> lanes ten_to_seventeen)))) |].
  split; [exact (proj2 (T (Array 8 (Some <$> lanes ten_to_seventeen)))) |].
  exact (proj1 (T (Array 8 [Some 1; Some 2; Some 3]))).
Defined.

Lemma Store_then_Load_gives_back_the_register_witness :
  Avx2_32_Float.Store false (Avx2_32_Float.Make ten_to_seventeen) (Array 64 (replicate 9 None)) =
    Ok (Array 64 ((Some <$> lanes ten_to_seventeen) ++ [None])) /\
  Avx2_32_Int.Store false (Avx2_32_Int.Make repeated_indexes) (Array 64 (replicate 9 None)) =
    Ok (Array 64 ((Some <$> lanes repeated_indexes) ++ [None])) /\
  Avx2_32_Float.Load false (Array 64 ((Some <$> lanes ten_to_seventeen) ++ [None])) =
    Ok (Avx2_32_Float.Make ten_to_seventeen) /\
  Avx2_32_Int.Load false (Array 64 ((Some <$> lanes repeated_indexes) ++ [None])) =
    Ok (Avx2_32_Int.Make repeated_indexes).
Proof.
  split; [reflexivity |]. split; [reflexivity |].
  pose proof (Store_then_Load_gives_back_the_register false
                (Avx2_32_Float.Make ten_to_seventeen) (Avx2_32_Int.Make repeated_indexes)
                (Array 64 (replicate 9 None)) _ (Array 64 (replicate 9 None)) _
                eq_refl eq_refl) as T.
  destruct T as ((Hfloat & _) & (Hint & _)).
  split; [exact Hfloat | exact Hint].
Defined.

Lemma Load_then_Store_leaves_the_array_witness :
  Avx2_32_Float.Load false (Array 96 (Some <$> lanes ten_to_seventeen)) =
    Ok (Avx2_32_Float.Make ten_to_seventeen) /\
  Avx2_32_Int.Load false (Array 96 (Some <$> lanes repeated_indexes)) =
    Ok (Avx2_32_Int.Make repeated_indexes) /\
  Avx2_32_Float.Store false (Avx2_32_Float.Make ten_to_seventeen)
      (Array 96 (Some <$> lanes ten_to_seventeen)) =
    Ok (Array 96 (Some <$> lanes ten_to_seventeen)) /\
  Avx2_32_Int.Store false (Avx2_32_Int.Make repeated_indexes)
      (Array 96 (Some <$> lanes repeated_indexes)) =
    Ok (Array 96 (Some <$> lanes repeated_indexes)).
Proof.
  split; [reflexivity |]. split; [reflexivity |].
  exact (Load_then_Store_leaves_the_array false
           (Avx2_32_Float.Make ten_to_seventeen) (Avx2_32_Int.Make repeated_indexes)
           (Array 96 (Some <$> lanes ten_to_seventeen))
           (Array 96 (Some <$> lanes repeated_indexes)) eq_refl eq_refl).
Defined.

Lemma MakeIndexes_gather_scatter_are_the_contiguous_moves_witness :
  (32 | 64) /\
  IsAligned (Array 96 ((Some <$> lanes repeated_indexes) ++ [Some 99])) 32 = true /\
  Avx2_32_Float.Load_i false (Array 96 ((Some <$> lanes repeated_indexes) ++ [Some 99]))
      Avx2_32_Int.MakeIndexes =
    Ok (Avx2_32_Float.Make repeated_indexes) /\
  Avx2_32_Float.Store_i false 64 Z.of_nat (Avx2_32_Float.Make ten_to_seventeen)
      (Array 96 ((Some <$> lanes repeated_indexes) ++ [Some 99])) Avx2_32_Int.MakeIndexes =
    Ok (Array 96 ((Some <$> lanes ten_to_seventeen) ++ [Some 99])) /\
  Avx2_32_Float.Load_i false six_cells Avx2_32_Int.MakeIndexes = Undefined /\
  Avx2_32_Float.Store_i false 64 Z.of_nat (Avx2_32_Float.Make ten_to_seventeen) six_cells
      Avx2_32_Int.MakeIndexes = Undefined.
Proof.
  split; [exact sixty_four_fits |]. split; [reflexivity |].
  pose proof (MakeIndexes_gather_scatter_are_the_contiguous_moves false 64 Z.of_nat
                sixty_four_fits (Avx2_32_Float.Make ten_to_seventeen)
                (Array 96 ((Some <$> lanes repeated_indexes) ++ [Some 99])) eq_refl)
    as [Hgather Hscatter].
  pose proof (MakeIndexes_gather_scatter_are_the_contiguous_moves false 64 Z.of_nat
                sixty_four_fits (Avx2_32_Float.Make ten_to_seventeen) six_cells eq_refl)
    as [Hshort_gather Hshort_scatter].
  split; [rewrite Hgather; reflexivity |].
  split; [rewrite Hscatter; reflexivity |].
  split; [rewrite Hshort_gather; reflexivity |].
  rewrite Hshort_scatter; reflexivity.
Defined.

Lemma gather_after_scatter_gives_back_the_register_witness :
  (32 | 64) /\
  NoDup (lanes (M256 9 8 7 6 5 4 3 2)) /\
  exists a' : array,
    Avx2_32_Float.Store_i false 64 Z.of_nat (Avx2_32_Float.Make ten_to_seventeen)
      (Array 96 (replicate 10 None)) (Avx2_32_Int.Make (M256 9 8 7 6 5 4 3 2)) = Ok a' /\
    Avx2_32_Float.Load_i false a' (Avx2_32_Int.Make (M256 9 8 7 6 5 4 3 2)) =
      Ok (Avx2_32_Float.Make ten_to_seventeen).
Proof.
  assert (Hnodup : NoDup (lanes (M256 9 8 7 6 5 4 3 2))).
  { unfold lanes. cbn [lane0 lane1 lane2 lane3 lane4 lane5 lane6 lane7].
    repeat (apply NoDup_cons_2;
            [intros Hin;
             repeat (apply elem_of_cons in Hin as [Hin | Hin]; [discriminate Hin |]);
             exact (not_elem_of_nil _ Hin) |]).
    apply NoDup_nil_2. }
  split; [exact sixty_four_fits |]. split; [exact Hnodup |].
  apply (gather_after_scatter_gives_back_the_register false 64 Z.of_nat sixty_four_fits
           (Avx2_32_Float.Make ten_to_seventeen) (Array 96 (replicate 10 None))
           (Avx2_32_Int.Make (M256 9 8 7 6 5 4 3 2)) eq_refl).
  - unfold lanes. repeat constructor; cbn; lia.
  - unfold lanes. repeat constructor; cbn; lia.
  - exact Hnodup.
Defined.

Lemma Exp_Log_apply_lanewise_witness :
  (32 | 64) /\
  Avx2_32_Float.Exp false 64 Z.of_nat (fun x => 2 * x) (Avx2_32_Float.Make ten_to_seventeen) =
    Ok (Avx2_32_Float.Make (M256 20 22 24 26 28 30 32 34)) /\
  Avx2_32_Float.Log true 64 Z.of_nat (fun x => x - 10) (Avx2_32_Float.Make ten_to_seventeen) =
    Ok (Avx2_32_Float.Make (M256 0 1 2 3 4 5 6 7)).
Proof.
  split; [exact sixty_four_fits |].
  split.
  - exact (proj1 (Exp_Log_apply_lanewise false 64 Z.of_nat sixty_four_fits
                    (fun x => 2 * x) (fun x => x - 10) (Avx2_32_Float.Make ten_to_seventeen))).
  - exact (proj1 (proj2 (Exp_Log_apply_lanewise true 64 Z.of_nat sixty_four_fits
                           (fun x => 2 * x) (fun x => x - 10)
                           (Avx2_32_Float.Make ten_to_seventeen)))).
Defined.

Lemma release_is_good_for_one_call_witness :
  payloads (wrapper bound_state) <> ∅ /\
  exists st' : State,
    FreeObjectiveWrapperInternals bound_state = Some st' /\
    wrapper st' = bound_wrapper /\
    FreeObjectiveWrapperInternals st' = None /\
    FreeObjectiveWrapperInternals
      (with_wrapper (InitializeObjectiveWrapperUnfailing (wrapper st')) st') =
      Some (with_wrapper (InitializeObjectiveWrapperUnfailing (wrapper st')) st').
Proof.
  assert (Hown : payloads (wrapper bound_state) <> ∅).
  { unfold payloads, bound_state, bound_wrapper, block_of. cbn. set_solver. }
  assert (Hfree : FreeObjectiveWrapperInternals bound_state =
    Some {| wrapper := bound_wrapper;
            live := live bound_state ∖ {[2%positive]} ∖ {[1%positive]};
            budget := 0 |}).
  { unfold FreeObjectiveWrapperInternals.
    change (m_pObjective (wrapper bound_state)) with (Some 2%positive).
    rewrite free_live by (unfold bound_state; cbn; set_solver).
    cbn [mbind option_bind wrapper bound_state].
    change (m_pFunctionPointersCpp bound_wrapper) with (Some 1%positive).
    rewrite free_live by (cbn; set_solver). reflexivity. }
  split; [exact Hown |].
  eexists. split; [exact Hfree |].
  exact (release_is_good_for_one_call bound_state _ Hfree Hown).
Defined.
